(** * dns.rdata: the rdata abstraction, the generic fallback and the type registry

    A shallow embedding of [dns/rdata.py] and the properties of its
    comparison, hashing, immutability, copy-with-overrides, text parsing of
    the generic form, and class resolution. *)

From Stdlib Require Import ZArith NArith.
From Stdlib.Strings Require Import Byte Ascii String.
From stdpp Require Import gmap strings list fin_maps.

Local Open Scope string_scope.
Local Open Scope list_scope.
Local Open Scope Z_scope.

(** * Part I: the embedding *)

(** ** Python values used by the module *)

(** [bytes]: an immutable sequence of integers in the range 0..255. *)
Abbreviation bytes := (list byte).

#[global] Instance byte_eq_decision : EqDecision byte := byte_eq_dec.

(** Field values held in the slots of an rdata; also the objects other than
    rdatas that an rdata can be compared with. *)
Inductive pyval :=
  | VNone
  | VInt (n : Z)
  | VStr (s : string)
  | VBytes (b : bytes).

#[global] Instance pyval_eq_decision : EqDecision pyval.
Proof. solve_decision. Defined.

(** The exceptions the module raises or lets through. [SyntaxError] and
    [FormError] are the ones of [dns.exception]; [binascii_Error] is
    [binascii.Error], a subclass of [ValueError] unrelated to
    [dns.exception.SyntaxError]. *)
Inductive exn :=
  | NotImplementedError
  | TypeError (msg : string)
  | AttributeError (msg : string)
  | ValueError (msg : string)
  | ImportError (msg : string)
  | binascii_Error (msg : string)
  | SyntaxError (msg : string)
  | FormError
  | UngetBufferFull
  | RdatatypeExists (rdclass rdtype : Z).

#[global] Instance exn_eq_decision : EqDecision exn.
Proof. solve_decision. Defined.

Definition is_SyntaxError (e : exn) : bool :=
  match e with SyntaxError _ => true | _ => false end.

Definition is_AttributeError (e : exn) : bool :=
  match e with AttributeError _ => true | _ => false end.

(** A call either returns or raises. *)
Inductive result (A : Type) :=
  | Ok (a : A)
  | Err (e : exn).
Arguments Ok {A} a.
Arguments Err {A} e.

#[global] Instance result_ret : MRet result := @Ok.
#[global] Instance result_bind : MBind result :=
  λ A B f m, match m with Ok a => f a | Err e => Err e end.

(** Comparison of [bytes] as Python does it: lexicographic on the unsigned
    byte values, a proper prefix being smaller. *)
Fixpoint bytes_compare (a b : bytes) : comparison :=
  match a, b with
  | [], [] => Eq
  | [], _ :: _ => Lt
  | _ :: _, [] => Gt
  | x :: a', y :: b' =>
      match N.compare (Byte.to_N x) (Byte.to_N y) with
      | Eq => bytes_compare a' b'
      | c => c
      end
  end.

(** [a == b] and [a > b] on bytes. *)
Definition bytes_eq (a b : bytes) : bool := bool_decide (a = b).
Definition bytes_gt (a b : bytes) : bool :=
  match bytes_compare a b with Gt => true | _ => false end.

(** The lexicographic order on byte sequences, as a relation: the first
    position where the sequences differ decides, and a proper prefix comes
    first. *)
Inductive lex_lt : bytes → bytes → Prop :=
  | lex_lt_nil y b : lex_lt [] (y :: b)
  | lex_lt_head x y a b : (Byte.to_N x < Byte.to_N y)%N → lex_lt (x :: a) (y :: b)
  | lex_lt_tail x a b : lex_lt a b → lex_lt (x :: a) (x :: b).

(** [str.replace(old, new)] for one-character [old] and [new]. *)
Fixpoint str_replace (old new : ascii) (s : string) : string :=
  match s with
  | EmptyString => EmptyString
  | String c s' =>
      String (if Ascii.eqb c old then new else c) (str_replace old new s')
  end.

(** [str.encode()]: a string is kept as the sequence of its UTF-8 bytes. *)
Definition str_encode (s : string) : bytes := list_byte_of_string s.

(** ** Formatting utilities *)

(** The loop of [_truncate_bitmap]: [n] is the number of indices still to be
    visited, so the index inspected is [i = n - 1], counting down to 0.  At
    every index visited [i < len(what)], so the subscript is in range. *)
Fixpoint _truncate_bitmap_loop (what : bytes) (n : nat) : bytes :=
  match n with
  | O => take 1 what                                  (* return what[0:1] *)
  | S i =>
      if bool_decide (nth i what x00 ≠ x00)           (* what[i] != 0 *)
      then take (i + 1) what                          (* return what[0: i + 1] *)
      else _truncate_bitmap_loop what i
  end.

Definition _truncate_bitmap (what : bytes) : bytes :=
  _truncate_bitmap_loop what (length what).

(** A prefix of [what] that ends in a non-zero byte. *)
Definition nonzero_ended_prefix (what p : bytes) : Prop :=
  p `prefix_of` what ∧ ∃ c, last p = Some c ∧ c ≠ x00.

(** The reading "shortest prefix whose last byte is non-zero". *)
Definition shortest_nonzero_ended_prefix (what r : bytes) : Prop :=
  nonzero_ended_prefix what r ∧
  ∀ p, nonzero_ended_prefix what p → (length r ≤ length p)%nat.

(** The reading "longest prefix whose last byte is non-zero". *)
Definition longest_nonzero_ended_prefix (what r : bytes) : Prop :=
  nonzero_ended_prefix what r ∧
  ∀ p, nonzero_ended_prefix what p → (length p ≤ length r)%nat.

(** ** Collaborators outside [dns/rdata.py] *)

(** [binascii.unhexlify] of the Python standard library: the argument must
    hold an even number of hexadecimal digits, upper or lower case;
    otherwise [binascii.Error] is raised.  The length is checked first. *)
Definition hex_value (c : byte) : option N :=
  let n := Byte.to_N c in
  if ((48 <=? n) && (n <=? 57))%N then Some (n - 48)%N
  else if ((97 <=? n) && (n <=? 102))%N then Some (n - 87)%N
  else if ((65 <=? n) && (n <=? 70))%N then Some (n - 55)%N
  else None.

Fixpoint unhexlify_pairs (hex : bytes) : result bytes :=
  match hex with
  | [] => Ok []
  | [_] => Err (binascii_Error "Odd-length string")
  | hi :: lo :: rest =>
      match hex_value hi, hex_value lo with
      | Some h, Some l =>
          data ← unhexlify_pairs rest;
          Ok (default x00 (Byte.of_N (16 * h + l)) :: data)
      | _, _ => Err (binascii_Error "Non-hexadecimal digit found")
      end
  end.

Definition unhexlify (hex : bytes) : result bytes :=
  if Nat.odd (length hex) then Err (binascii_Error "Odd-length string")
  else unhexlify_pairs hex.

(** Well-formed input of [unhexlify], stated independently of the decoder. *)
Definition wellformed_hex (hex : bytes) : Prop :=
  Nat.even (length hex) = true ∧ Forall (λ c, is_Some (hex_value c)) hex.

(** Modelled from the spec: the domain-name type is an external
    collaborator; a name is its sequence of labels and the DNS root is the
    name made of the single empty label.  Names are only passed through. *)
Definition Name : Type := list bytes.
Definition root : Name := [[]].

(** Modelled from the spec: the name-compression context handed to
    [to_wire], keyed by previously written names.  Only passed through. *)
Definition CompressTable : Type := list (Name * Z).

(** Modelled from the spec: the tokenizer is an external collaborator that
    lexes zone-file text into tokens.  It is kept as the tokens still to be
    delivered plus the one-token unget buffer; whitespace and comments are
    already skipped, and the end of the input reads as [EOF] for ever. *)
Inductive token_type := EOF | EOL | IDENTIFIER | QUOTED_STRING | DELIMITER.

#[global] Instance token_type_eq_decision : EqDecision token_type.
Proof. solve_decision. Defined.

(** Modelled from the spec: a token of the tokenizer, with its kind and its
    text. *)
Record Token := mk_Token { ttype : token_type; value : string }.

#[global] Instance Token_eq_decision : EqDecision Token.
Proof. solve_decision. Defined.

(** Modelled from the spec: [token.is_identifier()] and
    [token.is_eol_or_eof()]. *)
Definition is_identifier (token : Token) : bool :=
  bool_decide (ttype token = IDENTIFIER).
Definition is_eol_or_eof (token : Token) : bool :=
  bool_decide (ttype token = EOL) || bool_decide (ttype token = EOF).

(** Modelled from the spec: the state of a tokenizer. *)
Record Tokenizer := mk_Tokenizer {
  ungotten_token : option Token;
  tokens : list Token
}.

(** Modelled from the spec: [tok.get()] delivers the ungotten token if there
    is one, else the next token of the input. *)
Definition Tokenizer_get (tok : Tokenizer) : result (Token * Tokenizer) :=
  match ungotten_token tok with
  | Some token => Ok (token, mk_Tokenizer None (tokens tok))
  | None =>
      match tokens tok with
      | [] => Ok (mk_Token EOF "", tok)
      | token :: rest => Ok (token, mk_Tokenizer None rest)
      end
  end.

(** Modelled from the spec: [tok.unget(token)] puts one token back, so that
    the next [get] delivers it; the buffer holds one token. *)
Definition Tokenizer_unget (tok : Tokenizer) (token : Token) : result Tokenizer :=
  match ungotten_token tok with
  | Some _ => Err UngetBufferFull
  | None => Ok (mk_Tokenizer (Some token) (tokens tok))
  end.

(** [str.isdigit] and [int(text)] on decimal digits. *)
Definition is_digit (c : ascii) : bool :=
  let n := N_of_ascii c in ((48 <=? n) && (n <=? 57))%N.

Fixpoint all_digits (s : string) : bool :=
  match s with
  | EmptyString => true
  | String c s' => is_digit c && all_digits s'
  end.

Definition str_isdigit (s : string) : bool :=
  match s with EmptyString => false | _ => all_digits s end.

Fixpoint int_of_digits (acc : Z) (s : string) : Z :=
  match s with
  | EmptyString => acc
  | String c s' => int_of_digits (10 * acc + (Z.of_N (N_of_ascii c) - 48)) s'
  end.

(** Modelled from the spec: [tok.get_int()]; the next token must be an
    integer, anything else is a syntax error. *)
Definition Tokenizer_get_int (tok : Tokenizer) : result (Z * Tokenizer) :=
  '(token, tok) ← Tokenizer_get tok;
  if negb (is_identifier token) then
    Err (SyntaxError "expecting an identifier")
  else if negb (str_isdigit (value token)) then
    Err (SyntaxError "expecting an integer")
  else Ok (int_of_digits 0 (value token), tok).

(** Modelled from the spec: the random-access view abstraction that wire
    bytes are wrapped in. *)
Inductive wiredata := WireData (wire : bytes).

(** Modelled from the spec: [dns.wiredata.maybe_wrap] wraps wire bytes in
    the view. *)
Definition maybe_wrap (wire : bytes) : wiredata := WireData wire.

(** ** The rdata objects *)

(** The classes: the base class, the generic fallback, and the per-type
    variants, which live outside this module and are known by an identity. *)
Inductive cls :=
  | Rdata
  | GenericRdata
  | Variant (id : string).

#[global] Instance cls_eq_decision : EqDecision cls.
Proof. solve_decision. Defined.

(** An instance: its class, the two slots of the base class, which hold
    ints, and the slots the subclass adds. *)
Record rdata := mk_rdata {
  __class__ : cls;
  rdclass : Z;
  rdtype : Z;
  slots : gmap string pyval
}.

#[global] Instance rdata_eq_decision : EqDecision rdata.
Proof. solve_decision. Defined.

(** What an rdata can be compared with. *)
Inductive pyobj :=
  | ObjRdata (r : rdata)
  | ObjOther (v : pyval).

(** [isinstance(other, Rdata)] *)
Definition isinstance_Rdata (other : pyobj) : bool :=
  match other with ObjRdata _ => true | ObjOther _ => false end.

(** What a per-type variant overrides: its constructor (with the names of
    its parameters, as [inspect.signature] reports them), [to_wire], and the
    two factories. *)
Record VariantClass := mk_VariantClass {
  v_name : string;
  v_parameters : list string;
  v_init : list pyval → result rdata;
  v_to_wire : rdata → bytes → option CompressTable → option Name → result bytes;
  v_from_text : Z → Z → Tokenizer → option Name → bool → option Name →
                result (rdata * Tokenizer);
  v_from_wire : Z → Z → wiredata → Z → Z → option Name → result rdata
}.

(** A module object, as far as [getattr] is concerned: its attributes that
    are classes. *)
Abbreviation PyModule := (gmap string cls).

(** Modelled from the spec: the type-name registry of [dns.rdatatype], which
    records for a type its display name and whether it is a singleton. *)
Abbreviation TypeNames := (gmap Z (string * bool)).

(** Modelled from the spec: [dns.rdatatype.register_type] informs the
    registry of the display name and the singleton flag of a type. *)
Definition rdatatype_register_type (rdtype : Z) (rdtype_text : string)
    (is_singleton : bool) (names : TypeNames) : TypeNames :=
  <[rdtype := (rdtype_text, is_singleton)]> names.

(** Modelled from the spec: the special value ANY that acts as a wildcard,
    [dns.rdatatype.ANY] for types; its code is 255 (RFC 1035). *)
Definition rdatatype_ANY : Z := 255.

(** Modelled from the spec: the wildcard ANY for classes,
    [dns.rdataclass.ANY]; its code is 255 (RFC 1035). *)
Definition rdataclass_ANY : Z := 255.

(** Modelled from the spec: the class IN, [dns.rdataclass.IN], the default
    class of [register_type]; its code is 1. *)
Definition rdataclass_IN : Z := 1.

(** Modelled from the spec: the type NONE, [dns.rdatatype.NONE], that
    [covers] returns by default; its code is 0. *)
Definition rdatatype_NONE : Z := 0.

(** Everything else the module calls into. *)
Record Env := mk_Env {
  (** the builtin [hash] on bytes *)
  hash : bytes → Z;
  (** [dns.rdataclass.to_text] and [dns.rdatatype.to_text] *)
  rdataclass_to_text : Z → result string;
  rdatatype_to_text : TypeNames → Z → result string;
  (** [importlib.import_module] *)
  import_module : string → result PyModule;
  (** the per-type variants *)
  variant : string → VariantClass;
  (** [dns.tokenizer.Tokenizer(text)] *)
  Tokenizer_new : string → Tokenizer;
  (** slicing of the wire view, [wire[start: stop]] *)
  wiredata_slice : wiredata → Z → Z → result bytes
}.

(** ** class Rdata and class GenericRdata *)

Section Classes.
Context (E : Env).

(** [object.__setattr__(self, name, value)], as the constructors use it. *)
Definition object___setattr__ (self : rdata) (name : string) (v : pyval) : rdata :=
  mk_rdata (__class__ self) (rdclass self) (rdtype self) (<[name := v]> (slots self)).

(** [getattr(self, key)] *)
Definition getattr (self : rdata) (key : string) : result pyval :=
  if bool_decide (key = "rdclass") then Ok (VInt (rdclass self))
  else if bool_decide (key = "rdtype") then Ok (VInt (rdtype self))
  else match slots self !! key with
       | Some v => Ok v
       | None => Err (AttributeError key)
       end.

(** [Rdata.__init__], run on a new object of class [c]. *)
Definition Rdata___init__ (c : cls) (rdclass rdtype : Z) : rdata :=
  mk_rdata c rdclass rdtype ∅.

(** [GenericRdata.__init__] *)
Definition GenericRdata___init__ (c : cls) (rdclass rdtype : Z) (data : pyval) : rdata :=
  object___setattr__ (Rdata___init__ c rdclass rdtype) "data" data.

(** [Rdata.__setattr__] and [Rdata.__delattr__]; a success would return the
    updated object. *)
Definition Rdata___setattr__ (self : rdata) (name : string) (v : pyval) : result rdata :=
  Err (TypeError "object doesn't support attribute assignment").

Definition Rdata___delattr__ (self : rdata) (name : string) : result rdata :=
  Err (TypeError "object doesn't support attribute deletion").

(** The statements [self.name = v] and [del self.name]: the method is looked
    up on the class of [self]; neither [GenericRdata] nor the variants
    define one of their own, so the one of [Rdata] is found. *)
Definition setattr (self : rdata) (name : string) (v : pyval) : result rdata :=
  match __class__ self with
  | Rdata | GenericRdata | Variant _ => Rdata___setattr__ self name v
  end.

Definition delattr (self : rdata) (name : string) : result rdata :=
  match __class__ self with
  | Rdata | GenericRdata | Variant _ => Rdata___delattr__ self name
  end.

(** [Rdata.covers] *)
Definition Rdata_covers (self : rdata) : Z := rdatatype_NONE.

(** [Rdata.extended_rdatatype] *)
Definition Rdata_extended_rdatatype (self : rdata) : Z :=
  Z.lor (Z.shiftl (Rdata_covers self) 16) (rdtype self).

(** [file.write(data)] on a [BytesIO] whose contents are [file]. *)
Definition BytesIO_write (file : bytes) (data : pyval) : result bytes :=
  match data with
  | VBytes d => Ok (file ++ d)
  | _ => Err (TypeError "a bytes-like object is required")
  end.

(** [Rdata.to_wire] and [GenericRdata.to_wire]; the result is the contents
    of [file] after the call. *)
Definition Rdata_to_wire (self : rdata) (file : bytes)
    (compress : option CompressTable) (origin : option Name) : result bytes :=
  Err NotImplementedError.

Definition GenericRdata_to_wire (self : rdata) (file : bytes)
    (compress : option CompressTable) (origin : option Name) : result bytes :=
  data ← getattr self "data";
  BytesIO_write file data.

(** [self.to_wire(...)], dispatched on the class of [self]. *)
Definition to_wire (self : rdata) (file : bytes)
    (compress : option CompressTable) (origin : option Name) : result bytes :=
  match __class__ self with
  | Rdata => Rdata_to_wire self file compress origin
  | GenericRdata => GenericRdata_to_wire self file compress origin
  | Variant id => v_to_wire (variant E id) self file compress origin
  end.

(** [Rdata.to_digestable] *)
Definition Rdata_to_digestable (self : rdata) (origin : option Name) : result bytes :=
  let f := [] in
  to_wire self f None origin.

(** [Rdata._cmp] *)
Definition Rdata__cmp (self other : rdata) : result Z :=
  our ← Rdata_to_digestable self (Some root);
  their ← Rdata_to_digestable other (Some root);
  if bytes_eq our their then Ok 0
  else if bytes_gt our their then Ok 1
  else Ok (-1).

(** [Rdata.__eq__] and [Rdata.__ne__]; the first case is the test
    [not isinstance(other, Rdata)]. *)
Definition Rdata___eq__ (self : rdata) (other : pyobj) : result bool :=
  match other with
  | ObjOther _ => Ok false
  | ObjRdata other =>
      if bool_decide (rdclass self ≠ rdclass other) ||
         bool_decide (rdtype self ≠ rdtype other)
      then Ok false
      else c ← Rdata__cmp self other; Ok (c =? 0)
  end.

Definition Rdata___ne__ (self : rdata) (other : pyobj) : result bool :=
  match other with
  | ObjOther _ => Ok true
  | ObjRdata other =>
      if bool_decide (rdclass self ≠ rdclass other) ||
         bool_decide (rdtype self ≠ rdtype other)
      then Ok true
      else c ← Rdata__cmp self other; Ok (negb (c =? 0))
  end.

(** The ordering methods return a truth value or [NotImplemented].  The
    four of them differ in the test on the result of [_cmp] only. *)
Inductive cmp_result :=
  | NotImplemented
  | Bool (b : bool).

Definition ordering_method (test : Z → bool) (self : rdata) (other : pyobj)
    : result cmp_result :=
  match other with
  | ObjOther _ => Ok NotImplemented
  | ObjRdata other =>
      if bool_decide (rdclass self ≠ rdclass other) ||
         bool_decide (rdtype self ≠ rdtype other)
      then Ok NotImplemented
      else c ← Rdata__cmp self other; Ok (Bool (test c))
  end.

Definition Rdata___lt__ := ordering_method (λ c, c <? 0).
Definition Rdata___le__ := ordering_method (λ c, c <=? 0).
Definition Rdata___ge__ := ordering_method (λ c, c >=? 0).
Definition Rdata___gt__ := ordering_method (λ c, c >? 0).

(** The operators [a < b], [a <= b], [a >= b], [a > b] between rdatas, as
    the interpreter evaluates them: the method of the left operand, then the
    reflected method of the right operand, then [TypeError]. *)
Definition ordering_operator
    (method reflected : rdata → pyobj → result cmp_result) (a b : rdata)
    : result bool :=
  r ← method a (ObjRdata b);
  match r with
  | Bool x => Ok x
  | NotImplemented =>
      r' ← reflected b (ObjRdata a);
      match r' with
      | Bool x => Ok x
      | NotImplemented => Err (TypeError "'<' not supported between instances")
      end
  end.

Definition op_lt := ordering_operator Rdata___lt__ Rdata___gt__.
Definition op_le := ordering_operator Rdata___le__ Rdata___ge__.
Definition op_ge := ordering_operator Rdata___ge__ Rdata___le__.
Definition op_gt := ordering_operator Rdata___gt__ Rdata___lt__.

(** Equal class and equal type. *)
Definition same_class_and_type (a b : rdata) : Prop :=
  rdclass a = rdclass b ∧ rdtype a = rdtype b.

(** Exactly one of three truth values is true. *)
Definition exactly_one (p q r : bool) : bool :=
  (p && negb q && negb r) || (negb p && q && negb r) || (negb p && negb q && r).

(** [Rdata.__hash__] *)
Definition Rdata___hash__ (self : rdata) : result Z :=
  d ← Rdata_to_digestable self (Some root);
  Ok (hash E d).

(** [self.__class__.__name__] *)
Definition __name__ (c : cls) : string :=
  match c with
  | Rdata => "Rdata"
  | GenericRdata => "GenericRdata"
  | Variant id => v_name (variant E id)
  end.

(** [inspect.signature(self.__init__).parameters], in order. *)
Definition signature_parameters (c : cls) : list string :=
  match c with
  | Rdata => ["rdclass"; "rdtype"]
  | GenericRdata => ["rdclass"; "rdtype"; "data"]
  | Variant id => v_parameters (variant E id)
  end.

(** Calling the class [c] on the unpacked [args]: a new object of class [c], initialised by its [__init__]. *)
Definition construct (c : cls) (args : list pyval) : result rdata :=
  match c with
  | Rdata =>
      match args with
      | [VInt rdclass; VInt rdtype] => Ok (Rdata___init__ Rdata rdclass rdtype)
      | _ => Err (TypeError "__init__() arguments")
      end
  | GenericRdata =>
      match args with
      | [VInt rdclass; VInt rdtype; data] =>
          Ok (GenericRdata___init__ GenericRdata rdclass rdtype data)
      | _ => Err (TypeError "__init__() arguments")
      end
  | Variant id => v_init (variant E id) args
  end.

(** [kwargs.get(key, default)]; the keyword arguments are kept in the order
    given. *)
Fixpoint kwargs_get (kwargs : list (string * pyval)) (key : string) (default : pyval)
    : pyval :=
  match kwargs with
  | [] => default
  | (k, v) :: kwargs' => if bool_decide (k = key) then v else kwargs_get kwargs' key default
  end.

(** The loop of [Rdata.replace] that validates the keys of [kwargs]. *)
Fixpoint replace_check (name : string) (parameters : list string)
    (kwargs : list (string * pyval)) : result unit :=
  match kwargs with
  | [] => Ok ()
  | (key, _) :: kwargs' =>
      if bool_decide (key ∉ parameters) then
        Err (AttributeError ("'" +:+ name +:+ "' object has no attribute '" +:+ key +:+ "'"))
      else if bool_decide (key ∈ ["rdclass"; "rdtype"]) then
        Err (AttributeError ("Cannot overwrite '" +:+ name +:+ "' attribute '" +:+ key +:+ "'"))
      else replace_check name parameters kwargs'
  end.

(** The generator of [Rdata.replace] that builds the argument list; the
    default [getattr(self, key)] is evaluated for every parameter. *)
Fixpoint replace_args (self : rdata) (kwargs : list (string * pyval))
    (parameters : list string) : result (list pyval) :=
  match parameters with
  | [] => Ok []
  | key :: parameters' =>
      current ← getattr self key;
      args ← replace_args self kwargs parameters';
      Ok (kwargs_get kwargs key current :: args)
  end.

(** [Rdata.replace] *)
Definition Rdata_replace (self : rdata) (kwargs : list (string * pyval)) : result rdata :=
  let parameters := signature_parameters (__class__ self) in
  _ ← replace_check (__name__ (__class__ self)) parameters kwargs;
  args ← replace_args self kwargs parameters;
  construct (__class__ self) args.

(** A class in the usual style: called with one argument per parameter,
    integers for [rdclass] and [rdtype], its constructor returns an object
    of the class that holds each argument under the name of its parameter. *)
Definition constructor_stores (c : cls) : Prop :=
  ∀ args : list pyval,
    length args = length (signature_parameters c) →
    (∀ i key, signature_parameters c !! i = Some key →
              key = "rdclass" ∨ key = "rdtype" → ∃ n, args !! i = Some (VInt n)) →
    ∃ r, construct c args = Ok r ∧ __class__ r = c ∧
         ∀ i key v, signature_parameters c !! i = Some key →
                    args !! i = Some v → getattr r key = Ok v.

(** The loop of [GenericRdata.from_text] that collects the chunks up to the
    end of the line.  It runs over the tokens still to be delivered;
    [GenericRdata_chunks_step] states that it is the loop of the source. *)
Fixpoint GenericRdata_chunks_rest (rest : list Token) (chunks : list bytes)
    : list bytes * Tokenizer :=
  match rest with
  | [] => (chunks, mk_Tokenizer None [])
  | token :: rest' =>
      if is_eol_or_eof token then (chunks, mk_Tokenizer None rest')
      else GenericRdata_chunks_rest rest' (chunks ++ [str_encode (value token)])
  end.

Definition GenericRdata_chunks (tok : Tokenizer) (chunks : list bytes)
    : list bytes * Tokenizer :=
  match ungotten_token tok with
  | Some token =>
      if is_eol_or_eof token then (chunks, mk_Tokenizer None (tokens tok))
      else GenericRdata_chunks_rest (tokens tok) (chunks ++ [str_encode (value token)])
  | None => GenericRdata_chunks_rest (tokens tok) chunks
  end.

(** [GenericRdata.from_text]; returns the tokenizer as it is left. *)
Definition GenericRdata_from_text (c : cls) (rdclass rdtype : Z) (tok : Tokenizer)
    (origin : option Name) (relativize : bool) (relativize_to : option Name)
    : result (rdata * Tokenizer) :=
  '(token, tok) ← Tokenizer_get tok;
  if negb (is_identifier token) || bool_decide (value token ≠ "\#") then
    Err (SyntaxError "generic rdata does not start with \#")
  else
    '(length_, tok) ← Tokenizer_get_int tok;
    let '(chunks, tok) := GenericRdata_chunks tok [] in
    let hex := concat chunks in
    data ← unhexlify hex;
    if bool_decide (Z.of_nat (length data) ≠ length_) then
      Err (SyntaxError "generic rdata hex data has wrong length")
    else Ok (GenericRdata___init__ c rdclass rdtype (VBytes data), tok).

(** [GenericRdata.from_wire] *)
Definition GenericRdata_from_wire (c : cls) (rdclass rdtype : Z) (wire : wiredata)
    (current rdlen : Z) (origin : option Name) : result rdata :=
  data ← wiredata_slice E wire current (current + rdlen);
  Ok (GenericRdata___init__ c rdclass rdtype (VBytes data)).

(** [cls.from_text(...)] and [cls.from_wire(...)], dispatched on the class. *)
Definition cls_from_text (c : cls) (rdclass rdtype : Z) (tok : Tokenizer)
    (origin : option Name) (relativize : bool) (relativize_to : option Name)
    : result (rdata * Tokenizer) :=
  match c with
  | Rdata => Err NotImplementedError
  | GenericRdata => GenericRdata_from_text c rdclass rdtype tok origin relativize relativize_to
  | Variant id => v_from_text (variant E id) rdclass rdtype tok origin relativize relativize_to
  end.

Definition cls_from_wire (c : cls) (rdclass rdtype : Z) (wire : wiredata)
    (current rdlen : Z) (origin : option Name) : result rdata :=
  match c with
  | Rdata => Err NotImplementedError
  | GenericRdata => GenericRdata_from_wire c rdclass rdtype wire current rdlen origin
  | Variant id => v_from_wire (variant E id) rdclass rdtype wire current rdlen origin
  end.

End Classes.


(** ** The registry and the dispatch entry points *)

(** The state of the process that the module reads and writes: its own
    [_rdata_classes] dictionary and the type-name registry. *)
Record State := mk_State {
  _rdata_classes : gmap (Z * Z) cls;
  type_names : TypeNames
}.

(** Module-level code runs on that state; an exception leaves the state as
    it was when raised. *)
Definition M (A : Type) : Type := State → result A * State.

#[global] Instance M_ret : MRet M := λ A a s, (Ok a, s).
#[global] Instance M_bind : MBind M :=
  λ A B f m s, match m s with
               | (Ok a, s') => f a s'
               | (Err e, s') => (Err e, s')
               end.

Definition lift {A} (r : result A) : M A := λ s, (r, s).
Definition raise {A} (e : exn) : M A := λ s, (Err e, s).

(** [_rdata_classes.get(key)] and [_rdata_classes[key] = c] *)
Definition _rdata_classes_get (key : Z * Z) : M (option cls) :=
  λ s, (Ok (_rdata_classes s !! key), s).
Definition cached (key : Z * Z) (c : cls) (s : State) : State :=
  mk_State (<[key := c]> (_rdata_classes s)) (type_names s).
Definition _rdata_classes_set (key : Z * Z) (c : cls) : M unit :=
  λ s, (Ok (), cached key c s).

(** [try: body except ImportError: handler] *)
Definition try_except_ImportError {A} (body handler : M A) : M A :=
  λ s, match body s with
       | (Err (ImportError _), s') => handler s'
       | r => r
       end.

(** [getattr(mod, name)] on a module *)
Definition module_getattr (mod_ : PyModule) (name : string) : result cls :=
  match mod_ !! name with
  | Some c => Ok c
  | None => Err (AttributeError name)
  end.

(** The call [dns.rdatatype.register_type(rdtype, rdtype_text, is_singleton)] *)
Definition type_named (rdtype : Z) (rdtype_text : string) (is_singleton : bool)
    (s : State) : State :=
  mk_State (_rdata_classes s)
    (rdatatype_register_type rdtype rdtype_text is_singleton (type_names s)).
Definition dns_rdatatype_register_type (rdtype : Z) (rdtype_text : string)
    (is_singleton : bool) : M unit :=
  λ s, (Ok (), type_named rdtype rdtype_text is_singleton s).

(** Reading the type-name registry, for [dns.rdatatype.to_text]. *)
Definition get_type_names : M TypeNames := λ s, (Ok (type_names s), s).

Definition _module_prefix : string := "dns.rdtypes".

(** ['.'.join([_module_prefix, rdclass_text, rdtype_text])] *)
Definition module_path (rdclass_text rdtype_text : string) : string :=
  String.concat "." [_module_prefix; rdclass_text; rdtype_text].

Section Registry.
Context (E : Env).

(** [get_rdata_class]; a class object is true, [None] is false. *)
Definition get_rdata_class (rdclass rdtype : Z) : M cls :=
  c ← _rdata_classes_get (rdclass, rdtype);
  c ← match c with
      | Some _ => mret c
      | None =>
          c ← _rdata_classes_get (rdatatype_ANY, rdtype);
          match c with
          | Some _ => mret c
          | None =>
              rdclass_text ← lift (rdataclass_to_text E rdclass);
              names ← get_type_names;
              rdtype_text ← lift (rdatatype_to_text E names rdtype);
              let rdtype_text := str_replace "-" "_" rdtype_text in
              try_except_ImportError
                (mod_ ← lift (import_module E (module_path rdclass_text rdtype_text));
                 c ← lift (module_getattr mod_ rdtype_text);
                 _ ← _rdata_classes_set (rdclass, rdtype) c;
                 mret (Some c))
                (try_except_ImportError
                   (mod_ ← lift (import_module E (module_path "ANY" rdtype_text));
                    c ← lift (module_getattr mod_ rdtype_text);
                    _ ← _rdata_classes_set (rdataclass_ANY, rdtype) c;
                    _ ← _rdata_classes_set (rdclass, rdtype) c;
                    mret (Some c))
                   (mret None))
          end
      end;
  match c with
  | Some c => mret c
  | None =>
      let c := GenericRdata in
      _ ← _rdata_classes_set (rdclass, rdtype) c;
      mret c
  end.

(** [len(rdata.data)] *)
Definition py_len (v : pyval) : result Z :=
  match v with
  | VBytes b => Ok (Z.of_nat (length b))
  | VStr s => Ok (Z.of_nat (String.length s))
  | _ => Err (TypeError "object has no len()")
  end.

(** The wire argument of [from_wire] is bytes. *)
Definition as_wire (v : pyval) : result bytes :=
  match v with
  | VBytes b => Ok b
  | _ => Err (ValueError "unhandled type")
  end.

(** The module-level [from_wire] *)
Definition from_wire (rdclass rdtype : Z) (wire : pyval) (current rdlen : Z)
    (origin : option Name) : M rdata :=
  wire ← lift (as_wire wire);
  let wire := maybe_wrap wire in
  c ← get_rdata_class rdclass rdtype;
  lift (cls_from_wire E c rdclass rdtype wire current rdlen origin).

(** The module-level [from_text]; [tok] is a text or a tokenizer.  Returns
    the rdata and the tokenizer as it is left. *)
Definition from_text (rdclass rdtype : Z) (tok : string + Tokenizer)
    (origin : option Name) (relativize : bool) (relativize_to : option Name)
    : M (rdata * Tokenizer) :=
  let tok := match tok with inl text => Tokenizer_new E text | inr tok => tok end in
  c ← get_rdata_class rdclass rdtype;
  if bool_decide (c ≠ GenericRdata) then
    '(token, tok) ← lift (Tokenizer_get tok);
    tok ← lift (Tokenizer_unget tok token);
    if is_identifier token && bool_decide (value token = "\#") then
      '(rdata_, tok) ← lift (GenericRdata_from_text GenericRdata rdclass rdtype tok
                               origin relativize relativize_to);
      data ← lift (getattr rdata_ "data");
      rdlen ← lift (py_len data);
      r ← from_wire rdclass rdtype data 0 rdlen origin;
      mret (r, tok)
    else
      '(r, tok) ← lift (cls_from_text E c rdclass rdtype tok origin relativize relativize_to);
      mret (r, tok)
  else
    '(r, tok) ← lift (cls_from_text E c rdclass rdtype tok origin relativize relativize_to);
    mret (r, tok).

(** [register_type]; [implementation] is a module. *)
Definition register_type (implementation : PyModule) (rdtype : Z)
    (rdtype_text : string) (is_singleton : bool) (rdclass : Z) : M unit :=
  existing_cls ← get_rdata_class rdclass rdtype;
  if bool_decide (existing_cls ≠ GenericRdata) then
    raise (RdatatypeExists rdclass rdtype)
  else
    c ← lift (module_getattr implementation (str_replace "-" "_" rdtype_text));
    _ ← _rdata_classes_set (rdclass, rdtype) c;
    dns_rdatatype_register_type rdtype rdtype_text is_singleton.

End Registry.

(** ** The remaining formatting utilities *)

(** [binascii.hexlify] of the Python standard library: two lowercase
    hexadecimal digits per byte, the high one first. *)
Definition hex_digit (n : N) : byte :=
  default x00 (Byte.of_N (if (n <? 10)%N then 48 + n else 87 + n)%N).

Fixpoint hexlify (data : bytes) : bytes :=
  match data with
  | [] => []
  | c :: data' =>
      hex_digit (Byte.to_N c / 16) :: hex_digit (Byte.to_N c mod 16) :: hexlify data'
  end.

(** The comprehension [[line[i:i + chunksize] for i in range(i, len(line),
    chunksize)]] for a positive [chunksize]; [fuel] bounds the number of
    chunks, and [len(line)] of them are enough. *)
Fixpoint chunks_from (fuel : nat) (line : bytes) (chunksize i : nat) : list bytes :=
  match fuel with
  | O => []
  | S fuel' =>
      if (i <? length line)%nat
      then take chunksize (drop i line) :: chunks_from fuel' line chunksize (i + chunksize)
      else []
  end.

(** [sep.join(chunks)] on bytes *)
Fixpoint bytes_join (sep : bytes) (chunks : list bytes) : bytes :=
  match chunks with
  | [] => []
  | [chunk] => chunk
  | chunk :: chunks' => chunk ++ sep ++ bytes_join sep chunks'
  end.

(** [bytes.decode()] of ASCII bytes *)
Definition bytes_decode (b : bytes) : string := string_of_list_byte b.

(** The expression shared by [_hexify] and [_base64ify]:
    [b' '.join([line[i:i + chunksize] for i in range(0, len(line),
    chunksize)]).decode()].  [range] raises [ValueError] for a zero step and
    is empty for a negative one. *)
Definition chunk_join (line : bytes) (chunksize : Z) : result string :=
  if chunksize =? 0 then Err (ValueError "range() arg 3 must not be zero")
  else if chunksize <? 0 then Ok (bytes_decode (bytes_join [x20] []))
  else Ok (bytes_decode
             (bytes_join [x20]
                (chunks_from (length line) line (Z.to_nat chunksize) 0))).

Definition _hex_chunksize : Z := 32.

(** [_hexify] *)
Definition _hexify (data : bytes) (chunksize : Z) : result string :=
  let line := hexlify data in
  chunk_join line chunksize.

(** [base64.b64encode] of the Python standard library: the standard
    alphabet, three bytes to four characters, padded with [=]. *)
Definition b64_char (n : N) : byte :=
  default x00 (Byte.of_N
    (if (n <? 26)%N then 65 + n
     else if (n <? 52)%N then 71 + n
     else if (n <? 62)%N then n - 4
     else if (n =? 62)%N then 43 else 47)%N).

Fixpoint b64encode (data : bytes) : bytes :=
  match data with
  | [] => []
  | [a] =>
      let n := (Byte.to_N a * 65536)%N in
      [b64_char (n / 262144); b64_char (n / 4096 mod 64); x3d; x3d]
  | [a; b] =>
      let n := (Byte.to_N a * 65536 + Byte.to_N b * 256)%N in
      [b64_char (n / 262144); b64_char (n / 4096 mod 64); b64_char (n / 64 mod 64); x3d]
  | a :: b :: c :: data' =>
      let n := (Byte.to_N a * 65536 + Byte.to_N b * 256 + Byte.to_N c)%N in
      b64_char (n / 262144) :: b64_char (n / 4096 mod 64) ::
      b64_char (n / 64 mod 64) :: b64_char (n mod 64) :: b64encode data'
  end.

Definition _base64_chunksize : Z := 32.

(** [_base64ify] *)
Definition _base64ify (data : bytes) (chunksize : Z) : result string :=
  let line := b64encode data in
  chunk_join line chunksize.

(** [chr(c)] for a byte value *)
Definition chr (c : byte) : ascii := ascii_of_byte c.

(** ['%03d' % c] for a byte value: three decimal digits, zero padded. *)
Definition digit_char (n : N) : ascii := ascii_of_N (48 + n).
Definition format_03d (c : byte) : string :=
  let n := Byte.to_N c in
  String (digit_char (n / 100))
    (String (digit_char (n / 10 mod 10)) (String (digit_char (n mod 10)) "")).

(** [__escaped]: the bytes of the double quote and of the backslash. *)
Definition __escaped : bytes := [x22; x5c].

(** What the loop of [_escapify] adds to [text] for one byte. *)
Definition _escapify_byte (c : byte) : string :=
  if bool_decide (c ∈ __escaped) then String "\" (String (chr c) "")
  else if ((32 <=? Byte.to_N c) && (Byte.to_N c <? 127))%N then String (chr c) ""
  else String "\" (format_03d c).

(** The loop of [_escapify] *)
Fixpoint _escapify_loop (qstring : bytes) (text : string) : string :=
  match qstring with
  | [] => text
  | c :: qstring' => _escapify_loop qstring' (text +:+ _escapify_byte c)
  end.

(** [_escapify]; the argument is a [str], which is encoded first, or bytes. *)
Definition _escapify (qstring : string + bytes) : string :=
  let qstring := match qstring with
                 | inl s => str_encode s
                 | inr b => b
                 end in
  _escapify_loop qstring "".

(** The objects [_constify] is applied to: immutable atoms, byte arrays,
    tuples and lists. *)
Inductive obj :=
  | OAtom (v : pyval)
  | OByteArray (b : bytes)
  | OTuple (elts : list obj)
  | OList (elts : list obj).

(** Whether [hash(o)] returns: lists and byte arrays are unhashable, a tuple
    is hashable when all its elements are. *)
Fixpoint hashable (o : obj) : bool :=
  match o with
  | OAtom _ => true
  | OByteArray _ => false
  | OTuple elts => forallb hashable elts
  | OList _ => false
  end.

(** [_constify] *)
Fixpoint _constify (o : obj) : obj :=
  match o with
  | OByteArray b => OAtom (VBytes b)
  | OTuple elts =>
      if forallb hashable elts then o
      else OTuple (map _constify elts)
  | OList elts => OTuple (map _constify elts)
  | OAtom _ => o
  end.

(** The conversion of every byte array to bytes and of every list to a
    tuple, at every depth. *)
Fixpoint frozen (o : obj) : obj :=
  match o with
  | OByteArray b => OAtom (VBytes b)
  | OTuple elts => OTuple (map frozen elts)
  | OList elts => OTuple (map frozen elts)
  | OAtom _ => o
  end.

(** ['%d' % n] for a length [n]: the decimal digits of [n], most significant
    first; [fuel] bounds the number of digits. *)
Fixpoint format_d_aux (fuel : nat) (n : N) (acc : string) : string :=
  match fuel with
  | O => acc
  | S fuel' =>
      let acc' := String (digit_char (n mod 10)) acc in
      if (n <? 10)%N then acc' else format_d_aux fuel' (n / 10) acc'
  end.

Definition format_d (n : Z) : string :=
  let n := Z.to_N n in
  format_d_aux (S (N.to_nat (N.log2 n))) n "".

(** The argument of [binascii.hexlify] is bytes. *)
Definition as_bytes (v : pyval) : result bytes :=
  match v with
  | VBytes b => Ok b
  | _ => Err (TypeError "a bytes-like object is required")
  end.

(** ** The remaining methods *)

(** [Rdata.to_text] *)
Definition Rdata_to_text (self : rdata) (origin : option Name) (relativize : bool)
    : result string :=
  Err NotImplementedError.

(** [GenericRdata.to_text] *)
Definition GenericRdata_to_text (self : rdata) (origin : option Name)
    (relativize : bool) : result string :=
  data ← getattr self "data";
  n ← py_len data;
  data ← as_bytes data;
  hex ← _hexify data _hex_chunksize;
  Ok ("\# " +:+ format_d n +:+ " " +:+ hex).

Section MoreMethods.
Context (E : Env).


(** [Rdata.extended_rdatatype] of a class whose [covers] returns [c]. *)
Definition extended_rdatatype_covering (c : Z) (self : rdata) : Z :=
  Z.lor (Z.shiftl c 16) (rdtype self).

(** [self.to_text()], dispatched on the class of [self]; [variant_to_text]
    stands for the [to_text] of the per-type variants. *)
Definition to_text (variant_to_text : string → rdata → option Name → bool → result string)
    (self : rdata) (origin : option Name) (relativize : bool) : result string :=
  match __class__ self with
  | Rdata => Rdata_to_text self origin relativize
  | GenericRdata => GenericRdata_to_text self origin relativize
  | Variant id => variant_to_text id self origin relativize
  end.

(** [Rdata.validate] *)
Definition Rdata_validate
    (variant_to_text : string → rdata → option Name → bool → result string)
    (self : rdata) : M unit :=
  text ← lift (to_text variant_to_text self None true);
  _ ← from_text E (rdclass self) (rdtype self) (inl text) None true None;
  mret ().

End MoreMethods.

(** Modelled from the spec: the tokens of a line of text are its
    whitespace-separated words, read as identifiers. *)
Fixpoint split_words (s : string) (word : string) : list string :=
  match s with
  | EmptyString => if bool_decide (word = "") then [] else [word]
  | String c s' =>
      if Ascii.eqb c " " then
        (if bool_decide (word = "") then [] else [word]) ++ split_words s' ""
      else split_words s' (word +:+ String c "")
  end.

(** Modelled from the spec: the tokenizer of a line of text. *)
Definition lex_line (text : string) : list Token :=
  map (mk_Token IDENTIFIER) (split_words text "").

(** ** Reading escaped text, to state what [_escapify] guarantees *)

Definition quote_char : ascii := ascii_of_byte x22.
Definition backslash_char : ascii := ascii_of_byte x5c.
Definition digit_value (c : ascii) : N := (N_of_ascii c - 48)%N.

(** The byte at the front of an escaped text, and the rest of the text: a
    backslash followed by a quote or a backslash, a backslash followed by
    three decimal digits, or a character standing for itself. *)
Definition unescape_one (s : string) : option (byte * string) :=
  match s with
  | EmptyString => None
  | String c s1 =>
      if Ascii.eqb c backslash_char then
        match s1 with
        | EmptyString => None
        | String e s2 =>
            if Ascii.eqb e quote_char || Ascii.eqb e backslash_char
            then Some (byte_of_ascii e, s2)
            else
              match s2 with
              | String d2 (String d3 s4) =>
                  match Byte.of_N (100 * digit_value e + 10 * digit_value d2
                                   + digit_value d3) with
                  | Some b => Some (b, s4)
                  | None => None
                  end
              | _ => None
              end
        end
      else Some (byte_of_ascii c, s1)
  end.

(** Every character is a printable ASCII character, 0x20 to 0x7E. *)
Fixpoint all_printable (s : string) : bool :=
  match s with
  | EmptyString => true
  | String c s' =>
      let n := N_of_ascii c in
      (32 <=? n)%N && (n <=? 126)%N && all_printable s'
  end.

(** Reading [s] as the inside of a quoted string, where a backslash takes
    the next character with it: no double quote stands unescaped and no
    backslash is left dangling.  [escaped] tells that the previous character
    was an escaping backslash. *)
Fixpoint quotes_escaped (s : string) (escaped : bool) : bool :=
  match s with
  | EmptyString => negb escaped
  | String c s' =>
      if escaped then quotes_escaped s' false
      else if Ascii.eqb c backslash_char then quotes_escaped s' true
      else if Ascii.eqb c quote_char then false
      else quotes_escaped s' false
  end.

(** No character of [s] is a space. *)
Fixpoint space_free (s : string) : bool :=
  match s with
  | EmptyString => true
  | String c s' => negb (Ascii.eqb c " ") && space_free s'
  end.

(** ** A small concrete process, for evaluating the definitions *)

(** A variant in the usual style: one field [address], stored by the
    constructor under the name of its parameter, written verbatim by
    [to_wire]. *)
Definition example_A_init (args : list pyval) : result rdata :=
  match args with
  | [VInt rdclass; VInt rdtype; address] =>
      Ok (mk_rdata (Variant "A") rdclass rdtype {["address" := address]})
  | _ => Err (TypeError "__init__() arguments")
  end.

Definition example_A : VariantClass := {|
  v_name := "A";
  v_parameters := ["rdclass"; "rdtype"; "address"];
  v_init := example_A_init;
  v_to_wire := λ self file _ _,
    match slots self !! "address" with
    | Some (VBytes b) => Ok (file ++ b)
    | _ => Err (TypeError "a bytes-like object is required")
    end;
  v_from_text := λ rdclass rdtype tok _ _ _,
    '(token, tok) ← Tokenizer_get tok;
    r ← example_A_init [VInt rdclass; VInt rdtype; VBytes (str_encode (value token))];
    Ok (r, tok);
  v_from_wire := λ rdclass rdtype wire current rdlen _,
    match wire with
    | WireData b =>
        example_A_init [VInt rdclass; VInt rdtype;
                        VBytes (take (Z.to_nat rdlen) (drop (Z.to_nat current) b))]
    end
|}.

Definition example_import_module (name : string) : result PyModule :=
  if bool_decide (name = "dns.rdtypes.IN.A") then Ok {["A" := Variant "A"]}
  else if bool_decide (name = "dns.rdtypes.ANY.TXT") then Ok {["TXT" := Variant "TXT"]}
  else Err (ImportError name).

Definition example_env : Env := {|
  hash := λ b, Z.of_nat (length b);
  rdataclass_to_text := λ c,
    if bool_decide (c = 1) then Ok "IN"
    else if bool_decide (c = 255) then Ok "ANY"
    else Ok "CLASS";
  rdatatype_to_text := λ names t,
    match names !! t with
    | Some (text, _) => Ok text
    | None =>
        if bool_decide (t = 1) then Ok "A"
        else if bool_decide (t = 16) then Ok "TXT"
        else Ok "TYPE"
    end;
  import_module := example_import_module;
  variant := λ _, example_A;
  Tokenizer_new := λ text, mk_Tokenizer None [mk_Token IDENTIFIER text];
  wiredata_slice := λ wire start stop,
    match wire with
    | WireData b => Ok (take (Z.to_nat (stop - start)) (drop (Z.to_nat start) b))
    end
|}.

Definition empty_state : State := mk_State ∅ ∅.

(** A state where type 1 is bound for the class ANY only. *)
Definition example_state_any : State := mk_State {[(255, 1) := Variant "A"]} ∅.

(** A module that implements a type 9999 named [X-Y]. *)
Definition example_implementation : PyModule := {["X_Y" := Variant "XY"]}.

(** Two generic rdatas of class IN and type 9999, and one of another type. *)
Definition example_g1 : rdata :=
  GenericRdata___init__ GenericRdata 1 9999 (VBytes [x01; x02]).
Definition example_g2 : rdata :=
  GenericRdata___init__ GenericRdata 1 9999 (VBytes [x01; x03]).
Definition example_g3 : rdata :=
  GenericRdata___init__ GenericRdata 1 9998 (VBytes [x01; x02]).

Definition example_g4 : rdata :=
  GenericRdata___init__ GenericRdata 1 9999 (VBytes [x01; x04]).

(** An rdata of the variant, with the class, type and wire bytes of
    [example_g1]. *)
Definition example_a1 : rdata :=
  mk_rdata (Variant "A") 1 9999 {["address" := VBytes [x01; x02]]}.

(** The tokens of [\# 1 zz] and of [\# 2 c000]. *)
Definition example_tok_badhex : Tokenizer :=
  mk_Tokenizer None [mk_Token IDENTIFIER "\#"; mk_Token IDENTIFIER "1";
                     mk_Token IDENTIFIER "zz"].
Definition example_tok_generic : Tokenizer :=
  mk_Tokenizer None [mk_Token IDENTIFIER "\#"; mk_Token IDENTIFIER "2";
                     mk_Token IDENTIFIER "c0"; mk_Token IDENTIFIER "00"].

(** The example process with a tokenizer that reads a text as a line of
    words. *)
Definition example_env_words : Env := {|
  hash := hash example_env;
  rdataclass_to_text := rdataclass_to_text example_env;
  rdatatype_to_text := rdatatype_to_text example_env;
  import_module := import_module example_env;
  variant := variant example_env;
  Tokenizer_new := λ text, mk_Tokenizer None (lex_line text);
  wiredata_slice := wiredata_slice example_env
|}.


(** * Part II: properties *)

(** ** Properties of the formatting utilities *)

Lemma _truncate_bitmap_loop_zero what n :
  (∀ i, (i < n)%nat → nth i what x00 = x00) →
  _truncate_bitmap_loop what n = take 1 what.
Proof.
  induction n as [|n IH]; intros Hz; simpl; [done|].
  rewrite bool_decide_eq_false_2 by (intros H; apply H, Hz; lia).
  apply IH. intros i Hi. apply Hz. lia.
Qed.

Lemma _truncate_bitmap_loop_nonzero what n :
  (n ≤ length what)%nat →
  (∃ i, (i < n)%nat ∧ nth i what x00 ≠ x00) →
  ∃ i, (i < n)%nat ∧ nth i what x00 ≠ x00 ∧
       (∀ j, (i < j < n)%nat → nth j what x00 = x00) ∧
       _truncate_bitmap_loop what n = take (S i) what.
Proof.
  induction n as [|n IH]; intros Hn [i [Hi Hnz]]; [lia|].
  simpl. case_bool_decide as Hd.
  - exists n. repeat split; [lia|done|intros; lia|].
    by rewrite Nat.add_1_r.
  - destruct IH as (k & Hk & Hknz & Hkz & Hr); [lia| |].
    + exists i. split; [|done].
      destruct (decide (i = n)) as [->|]; [congruence|lia].
    + exists k. repeat split; [lia|done| |done].
      intros j Hj. destruct (decide (j = n)) as [->|]; [done|].
      apply Hkz. lia.
Qed.

Lemma nonzero_ended_prefix_index what p :
  nonzero_ended_prefix what p →
  ∃ i, length p = S i ∧ (i < length what)%nat ∧ nth i what x00 ≠ x00.
Proof.
  intros [[k ->] (c & Hl & Hc)].
  apply last_Some in Hl as [p' ->].
  exists (length p'). rewrite !length_app. simpl.
  repeat split; [lia|lia|].
  rewrite <-(assoc_L (++)). rewrite app_nth2 by lia.
  by rewrite Nat.sub_diag.
Qed.

Lemma take_S_nonzero_ended what i :
  (i < length what)%nat → nth i what x00 ≠ x00 →
  nonzero_ended_prefix what (take (S i) what).
Proof.
  intros Hi Hnz. split; [apply prefix_take|].
  exists (nth i what x00). split; [|done].
  destruct (lookup_lt_is_Some_2 what i Hi) as [c Hc].
  rewrite (take_S_r _ _ _ Hc), last_snoc.
  f_equal. symmetry. by apply nth_lookup_Some with (d := x00) in Hc.
Qed.

(** C6 (as amended): the result is always a prefix of the input; when the
    input has a non-zero byte the result is the longest prefix whose last
    byte is non-zero (the input without its trailing zero bytes); when the
    input is entirely zero the result is its first byte only, which for the
    empty input is the empty byte string; so the result has length at least
    1 exactly when the input is not empty.  The two examples evaluate as
    stated. *)
Theorem truncate_bitmap_longest_prefix :
  (∀ what : bytes,
      _truncate_bitmap what `prefix_of` what ∧
      (Exists (λ c, c ≠ x00) what →
         longest_nonzero_ended_prefix what (_truncate_bitmap what) ∧
         ∃ k, what = _truncate_bitmap what ++ replicate k x00) ∧
      (Forall (λ c, c = x00) what → _truncate_bitmap what = take 1 what) ∧
      (what ≠ [] → (1 ≤ length (_truncate_bitmap what))%nat) ∧
      (what = [] → _truncate_bitmap what = [])) ∧
  _truncate_bitmap [x01; x02; x00; x00] = [x01; x02] ∧
  _truncate_bitmap [x00; x00] = [x00].
Proof.
  split; [|by vm_compute].
  intros what.
  assert (Hzero : Forall (λ c, c = x00) what →
                  _truncate_bitmap what = take 1 what).
  { intros Hall. apply _truncate_bitmap_loop_zero. intros i Hi.
    destruct (lookup_lt_is_Some_2 what i Hi) as [c Hc].
    rewrite (nth_lookup_Some _ _ x00 _ Hc).
    by apply (Forall_lookup_1 _ _ _ _ Hall Hc). }
  assert (Hnonzero : Exists (λ c, c ≠ x00) what →
     ∃ i, (i < length what)%nat ∧ nth i what x00 ≠ x00 ∧
          (∀ j, (i < j < length what)%nat → nth j what x00 = x00) ∧
          _truncate_bitmap what = take (S i) what).
  { intros Hex. apply _truncate_bitmap_loop_nonzero; [done|].
    apply Exists_exists in Hex as (c & Hin & Hc).
    apply list_elem_of_lookup in Hin as [i Hi].
    exists i. split; [by eapply lookup_lt_Some|].
    by rewrite (nth_lookup_Some _ _ x00 _ Hi). }
  destruct (decide (Exists (λ c, c ≠ x00) what)) as [Hex|Hall].
  - destruct (Hnonzero Hex) as (i & Hi & Hnz & Hz & Hr).
    rewrite Hr. split; [apply prefix_take|]. split; [|split; [|split]].
    + intros _. split.
      * split; [by apply take_S_nonzero_ended|].
        intros p Hp. rewrite length_take.
        destruct (nonzero_ended_prefix_index _ _ Hp) as (j & -> & Hj & Hjnz).
        destruct (decide (j ≤ i)%nat); [lia|].
        exfalso. apply Hjnz, Hz. lia.
      * exists (length what - S i)%nat.
        rewrite <-(take_drop (S i) what) at 1. f_equal.
        symmetry. apply replicate_as_Forall. split; [by rewrite length_drop|].
        apply Forall_lookup_2. intros j c Hc. rewrite lookup_drop in Hc.
        rewrite <-(nth_lookup_Some _ _ x00 _ Hc). symmetry. apply Hz.
        apply lookup_lt_Some in Hc. lia.
    + intros Hall. exfalso.
      destruct (lookup_lt_is_Some_2 what i Hi) as [c Hc].
      apply Hnz. rewrite (nth_lookup_Some _ _ x00 _ Hc).
      by apply (Forall_lookup_1 _ _ _ _ Hall Hc).
    + intros _. rewrite length_take. lia.
    + intros ->. simpl in Hi. lia.
  - apply not_Exists_Forall in Hall; [|intros c; simpl; apply _].
    assert (Hall' : Forall (λ c, c = x00) what).
    { eapply Forall_impl; [exact Hall|]. simpl. intros c Hc.
      by apply dec_stable. }
    rewrite (Hzero Hall'). split; [apply prefix_take|].
    split; [|split; [|split]].
    + intros Hex. exfalso. apply Exists_exists in Hex as (c & Hin & Hc).
      apply Hc. by eapply Forall_forall in Hall'.
    + done.
    + intros Hne. destruct what; [done|]. simpl. lia.
    + by intros ->.
Qed.

(** C6 (as stated) fails: on [01 02 00 00] the shortest prefix whose last
    byte is non-zero is [01], not the result [01 02]; and on the empty input
    the result is empty, so its length is not at least 1. *)
Lemma truncate_bitmap_not_shortest_nor_nonempty :
  ¬ shortest_nonzero_ended_prefix
      [x01; x02; x00; x00] (_truncate_bitmap [x01; x02; x00; x00]) ∧
  shortest_nonzero_ended_prefix [x01; x02; x00; x00] [x01] ∧
  ¬ (1 ≤ length (_truncate_bitmap []))%nat.
Proof.
  split; [|split].
  - intros [_ Hmin].
    specialize (Hmin [x01]). simpl in Hmin.
    assert (nonzero_ended_prefix [x01; x02; x00; x00] [x01]) as Hp.
    { split; [by exists [x02; x00; x00]|by exists x01]. }
    apply Hmin in Hp. vm_compute in Hp. lia.
  - split.
    + split; [by exists [x02; x00; x00]|by exists x01].
    + intros p Hp. destruct (nonzero_ended_prefix_index _ _ Hp) as (i & -> & _).
      simpl. lia.
  - vm_compute. lia.
Qed.
(** ** The order on byte sequences *)

Lemma to_N_inj (x y : byte) : Byte.to_N x = Byte.to_N y → x = y.
Proof.
  intros H. apply (inj Some). by rewrite <-!Byte.of_to_N, H.
Qed.

Lemma bytes_compare_Eq (a b : bytes) : bytes_compare a b = Eq ↔ a = b.
Proof.
  revert b. induction a as [|x a IH]; intros [|y b]; simpl; try done.
  destruct (N.compare_spec (Byte.to_N x) (Byte.to_N y)) as [Hxy|Hxy|Hxy].
  - apply to_N_inj in Hxy as ->. rewrite IH. split; [by intros ->|by intros [= ->]].
  - split; [done|]. intros [= -> _]. lia.
  - split; [done|]. intros [= -> _]. lia.
Qed.

Lemma bytes_compare_Lt (a b : bytes) : bytes_compare a b = Lt ↔ lex_lt a b.
Proof.
  revert b. induction a as [|x a IH]; intros [|y b]; simpl.
  - split; [done|inversion 1].
  - split; [constructor|done].
  - split; [done|inversion 1].
  - destruct (N.compare_spec (Byte.to_N x) (Byte.to_N y)) as [Hxy|Hxy|Hxy].
    + apply to_N_inj in Hxy as ->. rewrite IH. split; [by constructor|].
      inversion 1; subst; [lia|done].
    + split; [by constructor|done].
    + split; [done|]. inversion 1; subst; lia.
Qed.

Lemma bytes_compare_antisym (a b : bytes) :
  bytes_compare b a = CompOpp (bytes_compare a b).
Proof.
  revert b. induction a as [|x a IH]; intros [|y b]; simpl; try done.
  rewrite (N.compare_antisym (Byte.to_N x)).
  destruct (Byte.to_N x ?= Byte.to_N y)%N; simpl; auto.
Qed.

Lemma bytes_compare_Gt (a b : bytes) : bytes_compare a b = Gt ↔ lex_lt b a.
Proof.
  rewrite <-bytes_compare_Lt, (bytes_compare_antisym a b).
  destruct (bytes_compare a b); simpl; split; congruence.
Qed.

Lemma lex_lt_irrefl (a : bytes) : ¬ lex_lt a a.
Proof.
  induction a as [|x a IH]; inversion 1; subst; [lia|done].
Qed.

Lemma lex_lt_trans (a b c : bytes) : lex_lt a b → lex_lt b c → lex_lt a c.
Proof.
  intros Hab. revert c. induction Hab as [y b|x y a b Hxy|x a b Hab IH];
    intros c Hbc; inversion Hbc; subst.
  - constructor.
  - constructor.
  - apply lex_lt_head. lia.
  - by apply lex_lt_head.
  - by apply lex_lt_head.
  - apply lex_lt_tail. by apply IH.
Qed.

Lemma lex_lt_trichotomy (a b : bytes) : lex_lt a b ∨ a = b ∨ lex_lt b a.
Proof.
  destruct (bytes_compare a b) eqn:Hc.
  - right; left. by apply bytes_compare_Eq.
  - left. by apply bytes_compare_Lt.
  - right; right. by apply bytes_compare_Gt.
Qed.

Lemma lex_lt_asym (a b : bytes) : lex_lt a b → ¬ lex_lt b a.
Proof.
  intros Hab Hba. by apply (lex_lt_irrefl a), (lex_lt_trans a b a).
Qed.

Lemma lex_lt_neq (a b : bytes) : lex_lt a b → a ≠ b.
Proof. intros Hab ->. by apply (lex_lt_irrefl b). Qed.

(** ** Comparison, hashing and immutability of rdatas *)

Section Comparison.
Context (E : Env).

Lemma Rdata__cmp_spec (a b : rdata) (wa wb : bytes) :
  Rdata_to_digestable E a (Some root) = Ok wa →
  Rdata_to_digestable E b (Some root) = Ok wb →
  ∃ c, Rdata__cmp E a b = Ok c ∧
       (c = 0 ∨ c = 1 ∨ c = -1) ∧
       (c = 0 ↔ wa = wb) ∧ (c = 1 ↔ lex_lt wb wa) ∧ (c = -1 ↔ lex_lt wa wb).
Proof.
  intros Ha Hb. unfold Rdata__cmp. rewrite Ha, Hb. simpl.
  unfold bytes_eq, bytes_gt. case_bool_decide as Heq.
  - subst. exists 0. repeat split; try done; try lia.
    + intros H. by apply lex_lt_irrefl in H.
    + intros H. by apply lex_lt_irrefl in H.
  - destruct (bytes_compare wa wb) eqn:Hc.
    + by apply bytes_compare_Eq in Hc.
    + apply bytes_compare_Lt in Hc. exists (-1).
      repeat split; try done; try lia.
      intros H. by apply lex_lt_asym in H.
    + apply bytes_compare_Gt in Hc. exists 1.
      repeat split; try done; try lia.
      intros H. by apply lex_lt_asym in H.
Qed.

Lemma ordering_method_same (test : Z → bool) (a b : rdata) :
  same_class_and_type a b →
  ordering_method E test a (ObjRdata b) = (c ← Rdata__cmp E a b; Ok (Bool (test c))).
Proof.
  intros [Hc Ht]. unfold ordering_method.
  by rewrite !bool_decide_eq_false_2 by (by intros H; apply H).
Qed.

Lemma ordering_method_differ (test : Z → bool) (a b : rdata) :
  ¬ same_class_and_type a b →
  ordering_method E test a (ObjRdata b) = Ok NotImplemented.
Proof.
  intros Hd. unfold ordering_method.
  destruct (decide (rdclass a = rdclass b)) as [Hc|Hc];
    destruct (decide (rdtype a = rdtype b)) as [Ht|Ht].
  - by destruct Hd.
  - rewrite (bool_decide_eq_true_2 (rdtype a ≠ rdtype b)) by done.
    by rewrite orb_true_r.
  - by rewrite (bool_decide_eq_true_2 (rdclass a ≠ rdclass b)) by done.
  - by rewrite (bool_decide_eq_true_2 (rdclass a ≠ rdclass b)) by done.
Qed.

Lemma Rdata___eq___same (a b : rdata) :
  same_class_and_type a b →
  Rdata___eq__ E a (ObjRdata b) = (c ← Rdata__cmp E a b; Ok (c =? 0)).
Proof.
  intros [Hc Ht]. unfold Rdata___eq__.
  by rewrite !bool_decide_eq_false_2 by (by intros H; apply H).
Qed.

Lemma Rdata___eq___differ (a b : rdata) :
  ¬ same_class_and_type a b → Rdata___eq__ E a (ObjRdata b) = Ok false.
Proof.
  intros Hd. unfold Rdata___eq__.
  destruct (decide (rdclass a = rdclass b)) as [Hc|Hc];
    destruct (decide (rdtype a = rdtype b)) as [Ht|Ht].
  - by destruct Hd.
  - rewrite (bool_decide_eq_true_2 (rdtype a ≠ rdtype b)) by done.
    by rewrite orb_true_r.
  - by rewrite (bool_decide_eq_true_2 (rdclass a ≠ rdclass b)) by done.
  - by rewrite (bool_decide_eq_true_2 (rdclass a ≠ rdclass b)) by done.
Qed.

(** The three comparisons of two serializable rdatas of one class and type,
    in terms of their canonical bytes. *)
Lemma comparisons_spec (a b : rdata) (wa wb : bytes) :
  same_class_and_type a b →
  Rdata_to_digestable E a (Some root) = Ok wa →
  Rdata_to_digestable E b (Some root) = Ok wb →
  ∃ lt eq gt : bool,
    op_lt E a b = Ok lt ∧ Rdata___eq__ E a (ObjRdata b) = Ok eq ∧ op_gt E a b = Ok gt ∧
    (lt = true ↔ lex_lt wa wb) ∧ (eq = true ↔ wa = wb) ∧ (gt = true ↔ lex_lt wb wa).
Proof.
  intros Hsame Ha Hb.
  destruct (Rdata__cmp_spec a b wa wb Ha Hb) as (c & Hcmp & Hrange & H0 & H1 & Hm1).
  exists (c <? 0), (c =? 0), (c >? 0).
  unfold op_lt, op_gt, ordering_operator, Rdata___lt__, Rdata___gt__.
  rewrite !(ordering_method_same _ a b), Rdata___eq___same, Hcmp by done. simpl.
  repeat split; try done.
  - intros Hlt. apply Hm1. apply Z.ltb_lt in Hlt. lia.
  - intros Hlt. apply Hm1 in Hlt. subst. done.
  - intros Heq. apply H0. by apply Z.eqb_eq in Heq.
  - intros Heq. apply H0 in Heq. by subst.
  - intros Hgt. apply H1. apply Z.gtb_gt in Hgt. lia.
  - intros Hgt. apply H1 in Hgt. by subst.
Qed.


(** The canonical form of a generic rdata is its opaque bytes. *)
Lemma GenericRdata_to_digestable (rdclass rdtype : Z) (data : bytes)
    (origin : option Name) :
  Rdata_to_digestable E (GenericRdata___init__ GenericRdata rdclass rdtype (VBytes data))
    origin = Ok data.
Proof. done. Qed.

(** C1: two rdatas [a], [b] of equal class and type that serialize compare
    by their canonical bytes: [a < b], [a == b] and [a > b] each return a
    truth value, which is true exactly when the bytes of [a] come
    lexicographically before, are equal to, or come after those of [b]; so
    exactly one of the three holds, and [<] is irreflexive, asymmetric,
    transitive and total.  Two rdatas of differing class or type are not
    equal, every ordering method answers [NotImplemented] and every
    ordering operator raises [TypeError]. *)
Theorem rdata_canonical_order (a b c : rdata) (wa wb wc : bytes) :
  same_class_and_type a b →
  same_class_and_type b c →
  Rdata_to_digestable E a (Some root) = Ok wa →
  Rdata_to_digestable E b (Some root) = Ok wb →
  Rdata_to_digestable E c (Some root) = Ok wc →
  (∃ lt eq gt : bool,
      op_lt E a b = Ok lt ∧ Rdata___eq__ E a (ObjRdata b) = Ok eq ∧
      op_gt E a b = Ok gt ∧
      (lt = true ↔ lex_lt wa wb) ∧ (eq = true ↔ wa = wb) ∧
      (gt = true ↔ lex_lt wb wa) ∧
      exactly_one lt eq gt = true) ∧
  op_lt E a a = Ok false ∧
  (op_lt E a b = Ok true → op_lt E b a = Ok false ∧ op_gt E b a = Ok true) ∧
  (op_lt E a b = Ok true → op_lt E b c = Ok true → op_lt E a c = Ok true) ∧
  (∀ x y : rdata,
      ¬ same_class_and_type x y →
      Rdata___eq__ E x (ObjRdata y) = Ok false ∧
      Rdata___ne__ E x (ObjRdata y) = Ok true ∧
      Rdata___lt__ E x (ObjRdata y) = Ok NotImplemented ∧
      Rdata___le__ E x (ObjRdata y) = Ok NotImplemented ∧
      Rdata___ge__ E x (ObjRdata y) = Ok NotImplemented ∧
      Rdata___gt__ E x (ObjRdata y) = Ok NotImplemented ∧
      (∃ m, op_lt E x y = Err (TypeError m)) ∧
      (∃ m, op_le E x y = Err (TypeError m)) ∧
      (∃ m, op_ge E x y = Err (TypeError m)) ∧
      (∃ m, op_gt E x y = Err (TypeError m))).
Proof.
  intros Hab Hbc Ha Hb Hc.
  assert (Hba : same_class_and_type b a) by (by destruct Hab).
  assert (Hac : same_class_and_type a c).
  { destruct Hab as [? ?], Hbc as [? ?]. split; congruence. }
  assert (Haa : same_class_and_type a a) by done.
  destruct (comparisons_spec a b wa wb Hab Ha Hb)
    as (lt & eq & gt & Hlt & Heq & Hgt & Ilt & Ieq & Igt).
  destruct (comparisons_spec b a wb wa Hba Hb Ha)
    as (lt' & eq' & gt' & Hlt' & Heq' & Hgt' & Ilt' & Ieq' & Igt').
  destruct (comparisons_spec b c wb wc Hbc Hb Hc)
    as (lt1 & eq1 & gt1 & Hlt1 & Heq1 & Hgt1 & Ilt1 & Ieq1 & Igt1).
  destruct (comparisons_spec a c wa wc Hac Ha Hc)
    as (lt2 & eq2 & gt2 & Hlt2 & Heq2 & Hgt2 & Ilt2 & Ieq2 & Igt2).
  destruct (comparisons_spec a a wa wa Haa Ha Ha)
    as (lt3 & eq3 & gt3 & Hlt3 & Heq3 & Hgt3 & Ilt3 & Ieq3 & Igt3).
  split; [|split; [|split; [|split]]].
  - exists lt, eq, gt. repeat split; try tauto.
    destruct (lex_lt_trichotomy wa wb) as [H|[H|H]].
    + pose proof (lex_lt_asym _ _ H). pose proof (lex_lt_neq _ _ H).
      destruct lt, eq, gt; simpl; tauto.
    + subst. pose proof (lex_lt_irrefl wb).
      destruct lt, eq, gt; simpl; tauto.
    + pose proof (lex_lt_asym _ _ H). pose proof (lex_lt_neq _ _ H).
      destruct lt, eq, gt; simpl; intuition congruence.
  - rewrite Hlt3. f_equal. pose proof (lex_lt_irrefl wa).
    destruct lt3; tauto.
  - rewrite Hlt, Hlt', Hgt'. intros [= ->].
    assert (lex_lt wa wb) as H by tauto.
    pose proof (lex_lt_asym _ _ H).
    split; f_equal; destruct lt', gt'; tauto.
  - rewrite Hlt, Hlt1, Hlt2. intros [= ->] [= ->]. f_equal.
    apply Ilt2. apply (lex_lt_trans wa wb wc); tauto.
  - intros x y Hd.
    assert (Hd' : ¬ same_class_and_type y x).
    { intros [? ?]. by apply Hd. }
    unfold op_lt, op_le, op_ge, op_gt, ordering_operator,
      Rdata___lt__, Rdata___le__, Rdata___ge__, Rdata___gt__.
    rewrite !(ordering_method_differ _ x y Hd), !(ordering_method_differ _ y x Hd').
    rewrite (Rdata___eq___differ x y Hd). simpl.
    repeat split; eauto.
    unfold Rdata___ne__.
    destruct (decide (rdclass x = rdclass y)) as [Hc'|Hc'];
      destruct (decide (rdtype x = rdtype y)) as [Ht'|Ht'].
    + by destruct Hd.
    + rewrite (bool_decide_eq_true_2 (rdtype x ≠ rdtype y)) by done.
      by rewrite orb_true_r.
    + by rewrite (bool_decide_eq_true_2 (rdclass x ≠ rdclass y)) by done.
    + by rewrite (bool_decide_eq_true_2 (rdclass x ≠ rdclass y)) by done.
Qed.

(** C7: when [a == b] is true, both rdatas serialize to one and the same
    canonical byte sequence, the hash of each is the hash of that sequence,
    and so [hash(a) == hash(b)]. *)
Theorem hash_agrees_with_eq (a b : rdata) :
  Rdata___eq__ E a (ObjRdata b) = Ok true →
  ∃ d : bytes,
    Rdata_to_digestable E a (Some root) = Ok d ∧
    Rdata_to_digestable E b (Some root) = Ok d ∧
    Rdata___hash__ E a = Ok (hash E d) ∧
    Rdata___hash__ E b = Ok (hash E d) ∧
    Rdata___hash__ E a = Rdata___hash__ E b.
Proof.
  unfold Rdata___eq__, Rdata___hash__.
  destruct (_ || _); [done|].
  unfold Rdata__cmp.
  destruct (Rdata_to_digestable E a (Some root)) as [wa|]; [|done].
  destruct (Rdata_to_digestable E b (Some root)) as [wb|]; [|done].
  simpl. unfold bytes_eq. case_bool_decide as Heq.
  - subst. intros _. by exists wb.
  - by destruct (bytes_gt wa wb).
Qed.

(** C9: assigning to an attribute of an rdata, or deleting one, raises
    [TypeError] whatever the class of the rdata, the attribute name and the
    value; no updated object is ever returned. *)
Theorem rdata_immutable (self : rdata) (name : string) (v : pyval) :
  setattr self name v = Err (TypeError "object doesn't support attribute assignment") ∧
  delattr self name = Err (TypeError "object doesn't support attribute deletion") ∧
  (∀ self', setattr self name v ≠ Ok self') ∧
  (∀ self', delattr self name ≠ Ok self').
Proof.
  unfold setattr, delattr. by destruct (__class__ self).
Qed.

(** C10: against an object that is not an rdata, [==] is [False] and [!=]
    is [True]; neither raises, whatever [to_wire] of the rdata would do. *)
Theorem eq_with_non_rdata (self : rdata) (x : pyval) :
  isinstance_Rdata (ObjOther x) = false ∧
  Rdata___eq__ E self (ObjOther x) = Ok false ∧
  Rdata___ne__ E self (ObjOther x) = Ok true.
Proof. done. Qed.

End Comparison.

(** ** Copy with overrides *)

Section Replace.
Context (E : Env).

Lemma replace_check_rejects (name : string) (parameters : list string)
    (kwargs : list (string * pyval)) (key : string) (val : pyval) :
  (key, val) ∈ kwargs →
  key ∉ parameters ∨ key = "rdclass" ∨ key = "rdtype" →
  ∃ msg, replace_check name parameters kwargs = Err (AttributeError msg).
Proof.
  intros Hin Hbad. induction kwargs as [|[k v] kwargs IH]; [by inversion Hin|].
  simpl. case_bool_decide as Hp; [eauto|].
  case_bool_decide as Hr; [eauto|].
  apply IH. apply elem_of_cons in Hin as [[= <- <-]|Hin]; [|done].
  exfalso. apply Hr. rewrite !elem_of_cons. tauto.
Qed.

Lemma replace_check_accepts (name : string) (parameters : list string)
    (kwargs : list (string * pyval)) :
  (∀ key val, (key, val) ∈ kwargs →
              key ∈ parameters ∧ key ≠ "rdclass" ∧ key ≠ "rdtype") →
  replace_check name parameters kwargs = Ok ().
Proof.
  induction kwargs as [|[k v] kwargs IH]; intros Hall; [done|].
  simpl. destruct (Hall k v) as (Hp & Hc & Ht); [apply list_elem_of_here|].
  rewrite bool_decide_eq_false_2 by (by intros H; apply H).
  rewrite bool_decide_eq_false_2.
  2:{ rewrite !elem_of_cons, elem_of_nil. tauto. }
  apply IH. intros key val Hin. apply (Hall key val).
  by apply list_elem_of_further.
Qed.

Lemma replace_args_spec (self : rdata) (kwargs : list (string * pyval))
    (parameters : list string) :
  (∀ key, key ∈ parameters → ∃ cur, getattr self key = Ok cur) →
  ∃ args, replace_args self kwargs parameters = Ok args ∧
          length args = length parameters ∧
          ∀ i key, parameters !! i = Some key →
                   ∃ cur, getattr self key = Ok cur ∧
                          args !! i = Some (kwargs_get kwargs key cur).
Proof.
  induction parameters as [|p ps IH]; intros Hget.
  - exists []. repeat split; [done..|]. intros i key Hi. by destruct i.
  - destruct (Hget p) as [cur Hcur]; [apply list_elem_of_here|].
    destruct IH as (args & Hargs & Hlen & Hnth).
    { intros key Hin. apply Hget. by apply list_elem_of_further. }
    exists (kwargs_get kwargs p cur :: args). simpl.
    rewrite Hcur, Hargs. simpl. repeat split; [by rewrite Hlen|].
    intros [|i] key Hi; simpl in *.
    + injection Hi as <-. eauto.
    + by apply Hnth.
Qed.

Lemma getattr_rdclass (self : rdata) : getattr self "rdclass" = Ok (VInt (rdclass self)).
Proof. done. Qed.

Lemma getattr_rdtype (self : rdata) : getattr self "rdtype" = Ok (VInt (rdtype self)).
Proof. done. Qed.

(** The two classes of this module are in the usual style. *)
Lemma GenericRdata_constructor_stores : constructor_stores E GenericRdata.
Proof.
  intros args Hlen Hint.
  destruct args as [|a0 [|a1 [|a2 [|]]]]; try done.
  destruct (Hint 0%nat "rdclass") as [n0 [= ->]]; [done|by left|].
  destruct (Hint 1%nat "rdtype") as [n1 [= ->]]; [done|by right|].
  eexists. split; [done|]. split; [done|].
  intros [|[|[|i]]] key v [= <-] [= <-]; done.
Qed.

Lemma Rdata_constructor_stores : constructor_stores E Rdata.
Proof.
  intros args Hlen Hint.
  destruct args as [|a0 [|a1 [|]]]; try done.
  destruct (Hint 0%nat "rdclass") as [n0 [= ->]]; [done|by left|].
  destruct (Hint 1%nat "rdtype") as [n1 [= ->]]; [done|by right|].
  eexists. split; [done|]. split; [done|].
  intros [|[|i]] key v [= <-] [= <-]; done.
Qed.

(** C8: for a value [v] of a class in the usual style and a parameter [f]
    of its constructor other than [rdclass] and [rdtype], [v.replace(f=x)]
    returns an object of the class of [v] whose field [f] is [x] and whose
    other fields are those of [v]; and [replace] raises [AttributeError]
    whenever one of the given names is not a parameter of the constructor,
    or is [rdclass] or [rdtype]. *)
Theorem replace_one_field :
  (∀ (v : rdata) (f : string) (x : pyval),
      constructor_stores E (__class__ v) →
      (∀ key, key ∈ signature_parameters E (__class__ v) →
              ∃ cur, getattr v key = Ok cur) →
      f ∈ signature_parameters E (__class__ v) →
      f ≠ "rdclass" → f ≠ "rdtype" →
      ∃ v', Rdata_replace E v [(f, x)] = Ok v' ∧
            __class__ v' = __class__ v ∧
            getattr v' f = Ok x ∧
            ∀ g, g ∈ signature_parameters E (__class__ v) → g ≠ f →
                 getattr v' g = getattr v g) ∧
  (∀ (v : rdata) (kwargs : list (string * pyval)) (key : string) (val : pyval),
      (key, val) ∈ kwargs →
      key ∉ signature_parameters E (__class__ v) ∨ key = "rdclass" ∨ key = "rdtype" →
      ∃ msg, Rdata_replace E v kwargs = Err (AttributeError msg)).
Proof.
  split.
  - intros v f x Hstores Hget Hf Hnc Hnt. unfold Rdata_replace.
    rewrite replace_check_accepts; [|intros key val [= -> ->]%list_elem_of_singleton; done].
    destruct (replace_args_spec v [(f, x)] _ Hget) as (args & -> & Hlen & Hnth).
    simpl.
    destruct (Hstores args Hlen) as (r & -> & Hcls & Hfields).
    { intros i key Hi Hkey. destruct (Hnth i key Hi) as (cur & Hcur & ->).
      simpl. rewrite bool_decide_eq_false_2 by (destruct Hkey; congruence).
      destruct Hkey as [-> | ->]; [rewrite getattr_rdclass in Hcur
                                  |rewrite getattr_rdtype in Hcur];
        injection Hcur as <-; eauto. }
    exists r. split; [done|]. split; [done|]. split.
    + apply list_elem_of_lookup in Hf as [i Hi].
      destruct (Hnth i f Hi) as (cur & Hcur & Hargs).
      apply (Hfields i f x Hi). rewrite Hargs. simpl.
      by rewrite bool_decide_eq_true_2.
    + intros g Hg Hgf. apply list_elem_of_lookup in Hg as [i Hi].
      destruct (Hnth i g Hi) as (cur & Hcur & Hargs).
      rewrite Hcur. apply (Hfields i g cur Hi). rewrite Hargs. simpl.
      by rewrite bool_decide_eq_false_2 by congruence.
  - intros v kwargs key val Hin Hbad. unfold Rdata_replace.
    destruct (replace_check_rejects (__name__ E (__class__ v))
                (signature_parameters E (__class__ v)) kwargs key val Hin Hbad)
      as [msg ->].
    by exists msg.
Qed.

End Replace.

(** ** Text form of the generic rdata *)

Lemma list_pair_ind {A} (P : list A → Prop) :
  P [] → (∀ x, P [x]) → (∀ x y l, P l → P (x :: y :: l)) → ∀ l, P l.
Proof.
  intros Hnil Hone Hstep l.
  assert (P l ∧ ∀ x, P (x :: l)) as [? _]; [|done].
  induction l as [|y l [IH1 IH2]]; [by split|].
  split; [apply IH2|]. intros x. by apply Hstep.
Qed.

Lemma unhexlify_pairs_wellformed (hex : bytes) :
  Forall (λ c, is_Some (hex_value c)) hex → Nat.even (length hex) = true →
  ∃ data, unhexlify_pairs hex = Ok data ∧ (length hex = 2 * length data)%nat.
Proof.
  induction hex as [|x|x y hex IH] using list_pair_ind; intros Hall Hev.
  - by exists [].
  - done.
  - apply Forall_cons in Hall as [[h Hh] Hall].
    apply Forall_cons in Hall as [[l Hl] Hall].
    destruct (IH Hall Hev) as (data & Hd & Hlen).
    simpl. rewrite Hh, Hl, Hd. simpl. eexists. split; [done|].
    simpl. lia.
Qed.

Lemma unhexlify_pairs_malformed (hex : bytes) :
  ¬ Forall (λ c, is_Some (hex_value c)) hex →
  ∃ msg, unhexlify_pairs hex = Err (binascii_Error msg).
Proof.
  induction hex as [|x|x y hex IH] using list_pair_ind; intros Hbad.
  - by destruct Hbad.
  - simpl. eauto.
  - simpl. destruct (hex_value x) as [h|] eqn:Hh; [|eauto].
    destruct (hex_value y) as [l|] eqn:Hl; [|eauto].
    destruct IH as [msg ->]; [|simpl; eauto].
    intros Hall. apply Hbad. repeat constructor; by rewrite ?Hh, ?Hl.
Qed.

(** [unhexlify] returns exactly on well-formed input and raises
    [binascii.Error] otherwise. *)
Lemma unhexlify_spec (hex : bytes) :
  (wellformed_hex hex →
   ∃ data, unhexlify hex = Ok data ∧ (length hex = 2 * length data)%nat) ∧
  (¬ wellformed_hex hex → ∃ msg, unhexlify hex = Err (binascii_Error msg)).
Proof.
  unfold unhexlify, wellformed_hex. rewrite <-Nat.negb_odd.
  destruct (Nat.odd (length hex)) eqn:Hodd; simpl.
  - split; [by intros [? _]|eauto].
  - split.
    + intros [_ Hall]. apply unhexlify_pairs_wellformed; [done|].
      by rewrite <-Nat.negb_odd, Hodd.
    + intros Hbad. apply unhexlify_pairs_malformed. tauto.
Qed.

(** The chunk collector is the loop of the source: get a token, stop at the
    end of the line, otherwise append its encoded value and go on. *)
Lemma GenericRdata_chunks_step (tok : Tokenizer) (chunks : list bytes) :
  ∃ token tok',
    Tokenizer_get tok = Ok (token, tok') ∧
    GenericRdata_chunks tok chunks =
      if is_eol_or_eof token then (chunks, tok')
      else GenericRdata_chunks tok' (chunks ++ [str_encode (value token)]).
Proof.
  destruct tok as [[u|] ts]; unfold Tokenizer_get, GenericRdata_chunks; simpl.
  - eexists _, _. split; [done|]. by destruct (is_eol_or_eof u).
  - destruct ts as [|t ts]; simpl.
    + eexists _, _. split; [done|]. done.
    + eexists _, _. split; [done|]. by destruct (is_eol_or_eof t).
Qed.

Lemma Tokenizer_get_int_not_integer (tok tok' : Tokenizer) (token : Token) :
  Tokenizer_get tok = Ok (token, tok') →
  is_identifier token = false ∨ str_isdigit (value token) = false →
  ∃ msg, Tokenizer_get_int tok = Err (SyntaxError msg).
Proof.
  intros Hget Hbad. unfold Tokenizer_get_int. rewrite Hget. simpl.
  destruct (is_identifier token); simpl; [|eauto].
  destruct Hbad as [Hb|Hb]; [done|]. rewrite Hb. simpl. eauto.
Qed.

(** C5 (as amended): [GenericRdata.from_text] raises a syntax error when the
    first token is not the identifier [\#], when the length token is not an
    integer, and when the decoded data has not the declared length; when
    the concatenated tokens are malformed hex it raises [binascii.Error],
    which is not a syntax error.  Every one of these failures reaches the
    caller, and in the remaining case the generic rdata holding the decoded
    bytes is returned. *)
Theorem generic_from_text_failures (c : cls) (rdclass rdtype : Z) (tok tok1 : Tokenizer)
    (token : Token) (origin : option Name) (relativize : bool)
    (relativize_to : option Name) :
  Tokenizer_get tok = Ok (token, tok1) →
  let r := GenericRdata_from_text c rdclass rdtype tok origin relativize relativize_to in
  (is_identifier token = false ∨ value token ≠ "\#" →
     r = Err (SyntaxError "generic rdata does not start with \#")) ∧
  (is_identifier token = true → value token = "\#" →
     (∀ token2 tok2,
         Tokenizer_get tok1 = Ok (token2, tok2) →
         is_identifier token2 = false ∨ str_isdigit (value token2) = false →
         ∃ msg, r = Err (SyntaxError msg)) ∧
     (∀ length_ tok2,
         Tokenizer_get_int tok1 = Ok (length_, tok2) →
         let hex := concat (GenericRdata_chunks tok2 []).1 in
         (¬ wellformed_hex hex →
            ∃ msg, r = Err (binascii_Error msg) ∧
                   is_SyntaxError (binascii_Error msg) = false) ∧
         (∀ data, unhexlify hex = Ok data →
            Z.of_nat (length data) ≠ length_ →
            r = Err (SyntaxError "generic rdata hex data has wrong length")) ∧
         (∀ data, unhexlify hex = Ok data →
            Z.of_nat (length data) = length_ →
            r = Ok (GenericRdata___init__ c rdclass rdtype (VBytes data),
                    (GenericRdata_chunks tok2 []).2)))).
Proof.
  intros Hget r. subst r. unfold GenericRdata_from_text. rewrite Hget. simpl.
  split.
  - intros [Hid|Hv]; [by rewrite Hid|].
    rewrite (bool_decide_eq_true_2 _ Hv). by rewrite orb_true_r.
  - intros Hid Hv. rewrite Hid. simpl.
    rewrite bool_decide_eq_false_2 by (by intros H; apply H).
    split.
    + intros token2 tok2 Hget2 Hbad.
      destruct (Tokenizer_get_int_not_integer _ _ _ Hget2 Hbad) as [msg ->].
      simpl. eauto.
    + intros length_ tok2 Hint. rewrite Hint. simpl.
      destruct (GenericRdata_chunks tok2 []) as [chunks tok3]. simpl.
      split; [|split].
      * intros Hbad. destruct (unhexlify_spec (concat chunks)) as [_ Herr].
        destruct (Herr Hbad) as [msg ->]. simpl. eauto.
      * intros data Hdata Hne. rewrite Hdata. simpl.
        by rewrite bool_decide_eq_true_2.
      * intros data Hdata Heq. rewrite Hdata. simpl.
        by rewrite bool_decide_eq_false_2 by (by intros H; apply H).
Qed.

(** C5 (as stated) fails: on the tokens of [\# 1 zz] the hex is malformed
    and the exception raised is [binascii.Error], not a syntax error. *)
Lemma generic_from_text_malformed_hex_not_syntax_error :
  ¬ wellformed_hex (str_encode "zz") ∧
  GenericRdata_from_text GenericRdata 1 9999 example_tok_badhex None true None
    = Err (binascii_Error "Non-hexadecimal digit found") ∧
  is_SyntaxError (binascii_Error "Non-hexadecimal digit found") = false.
Proof.
  split; [|done].
  intros [_ Hall]. apply Forall_cons in Hall as [[n Hn] _]. by vm_compute in Hn.
Qed.

(** ** Resolution of classes and registration *)

Section RegistryProperties.
Context (E : Env).

Lemma get_rdata_class_exact_hit (rdclass rdtype : Z) (s : State) (c : cls) :
  _rdata_classes s !! (rdclass, rdtype) = Some c →
  get_rdata_class E rdclass rdtype s = (Ok c, s).
Proof.
  intros Hhit. unfold get_rdata_class, mbind, M_bind, _rdata_classes_get.
  by rewrite Hhit.
Qed.

Lemma get_rdata_class_any_hit (rdclass rdtype : Z) (s : State) (c : cls) :
  _rdata_classes s !! (rdclass, rdtype) = None →
  _rdata_classes s !! (rdatatype_ANY, rdtype) = Some c →
  get_rdata_class E rdclass rdtype s = (Ok c, s).
Proof.
  intros Hmiss Hhit. unfold get_rdata_class, mbind, M_bind, _rdata_classes_get.
  by rewrite Hmiss, Hhit.
Qed.

(** After a lookup that returned, the key is served from the cache. *)
Lemma get_rdata_class_cached (rdclass rdtype : Z) (s s' : State) (c : cls) :
  get_rdata_class E rdclass rdtype s = (Ok c, s') →
  _rdata_classes s' !! (rdclass, rdtype) = Some c ∨
  (s' = s ∧ _rdata_classes s' !! (rdclass, rdtype) = None ∧
   _rdata_classes s' !! (rdatatype_ANY, rdtype) = Some c).
Proof.
  unfold get_rdata_class, mbind, M_bind, _rdata_classes_get, _rdata_classes_set,
    cached, try_except_ImportError, lift, get_type_names, mret, M_ret, module_getattr.
  intros H.
  repeat (case_match; simplify_eq/=); rewrite ?lookup_insert_eq; auto.
Qed.


(** A lookup that returned is repeated from the cache alone: the same class
    comes back and the state is left as it is, whatever the naming
    convention would find now. *)
Lemma get_rdata_class_memoized (rdclass rdtype : Z) (s s' : State) (c : cls) (E' : Env) :
  get_rdata_class E rdclass rdtype s = (Ok c, s') →
  get_rdata_class E' rdclass rdtype s' = (Ok c, s').
Proof.
  intros H. destruct (get_rdata_class_cached _ _ _ _ _ H) as [Hhit|(_ & Hmiss & Hany)].
  - unfold get_rdata_class, mbind, M_bind, _rdata_classes_get. by rewrite Hhit.
  - unfold get_rdata_class, mbind, M_bind, _rdata_classes_get. by rewrite Hmiss, Hany.
Qed.

(** C2 (as amended): [get_rdata_class] resolves a key in this order: (1) a
    hit under (class, type) is returned; (2) a hit under (ANY, type) is
    returned and the cache is left as it is, with no entry added under
    (class, type); (3) a class of the specific-class module of the naming
    convention is cached under (class, type) and returned; (4) when that
    module cannot be imported, a class of the ANY module is cached under
    (ANY, type) and (class, type) and returned; (5) when neither module can
    be imported the key is bound to [GenericRdata] and that is cached.
    After any lookup that returned, the same lookup returns the same class
    without changing the state and without consulting the naming
    convention again. *)
Theorem get_rdata_class_resolution (rdclass rdtype : Z) (s : State) :
  let key := (rdclass, rdtype) in
  let r := get_rdata_class E rdclass rdtype s in
  (∀ c, _rdata_classes s !! key = Some c → r = (Ok c, s)) ∧
  (∀ c, _rdata_classes s !! key = None →
        _rdata_classes s !! (rdatatype_ANY, rdtype) = Some c →
        r = (Ok c, s) ∧ _rdata_classes r.2 !! key = None) ∧
  (∀ rdclass_text rdtype_text,
      _rdata_classes s !! key = None →
      _rdata_classes s !! (rdatatype_ANY, rdtype) = None →
      rdataclass_to_text E rdclass = Ok rdclass_text →
      rdatatype_to_text E (type_names s) rdtype = Ok rdtype_text →
      let name := str_replace "-" "_" rdtype_text in
      (∀ mod_ c,
          import_module E (module_path rdclass_text name) = Ok mod_ →
          mod_ !! name = Some c →
          r = (Ok c, cached key c s)) ∧
      (∀ msg,
          import_module E (module_path rdclass_text name) = Err (ImportError msg) →
          (∀ mod_ c,
              import_module E (module_path "ANY" name) = Ok mod_ →
              mod_ !! name = Some c →
              r = (Ok c, cached key c (cached (rdataclass_ANY, rdtype) c s))) ∧
          (∀ msg',
              import_module E (module_path "ANY" name) = Err (ImportError msg') →
              r = (Ok GenericRdata, cached key GenericRdata s)))) ∧
  (∀ c s', r = (Ok c, s') →
           ∀ E', get_rdata_class E' rdclass rdtype s' = (Ok c, s')).
Proof.
  intros key r. subst key r. split; [|split; [|split]].
  - intros c Hhit. by apply get_rdata_class_exact_hit.
  - intros c Hmiss Hany. by rewrite (get_rdata_class_any_hit _ _ _ c).
  - intros rdclass_text rdtype_text Hmiss Hany Hct Htt name.
    unfold get_rdata_class, mbind, M_bind, _rdata_classes_get, _rdata_classes_set,
      try_except_ImportError, lift, get_type_names, mret, M_ret, module_getattr.
    rewrite Hmiss, Hany, Hct, Htt. fold name. unfold module_path.
    split.
    + intros mod_ c Himp Hattr. by rewrite Himp, Hattr.
    + intros msg Himp. rewrite Himp. split.
      * intros mod_ c Himp' Hattr. by rewrite Himp', Hattr.
      * intros msg' Himp'. by rewrite Himp'.
  - intros c s' Hr E'. by apply (get_rdata_class_memoized _ _ s).
Qed.

(** C2 (as stated) fails: with type 1 bound under (ANY, 1) only, the lookup
    of (IN, 1) returns that class and leaves the cache without an entry
    under (IN, 1). *)
Lemma get_rdata_class_any_hit_not_cached :
  _rdata_classes example_state_any !! (1, 1) = None ∧
  _rdata_classes example_state_any !! (rdatatype_ANY, 1) = Some (Variant "A") ∧
  (get_rdata_class example_env 1 1 example_state_any).1 = Ok (Variant "A") ∧
  _rdata_classes (get_rdata_class example_env 1 1 example_state_any).2 !! (1, 1) = None.
Proof. by vm_compute. Qed.


(** C4: when the resolution of the key returns [existing] and the module
    [implementation] has the class named by the type text,
    [register_type] raises [RdatatypeExists] if and only if [existing] is
    not [GenericRdata]; otherwise it returns, the key is bound to the class
    of [implementation] and the type-name registry holds the display name
    and the singleton flag of the type.  A second [register_type] for the
    same key then raises [RdatatypeExists] exactly when the class bound by
    the first is not [GenericRdata]. *)
Theorem register_type_exists_iff (implementation : PyModule) (rdtype : Z)
    (rdtype_text : string) (is_singleton : bool) (rdclass : Z)
    (s s1 : State) (existing impl : cls) :
  get_rdata_class E rdclass rdtype s = (Ok existing, s1) →
  implementation !! str_replace "-" "_" rdtype_text = Some impl →
  let r := register_type E implementation rdtype rdtype_text is_singleton rdclass s in
  let s2 := type_named rdtype rdtype_text is_singleton (cached (rdclass, rdtype) impl s1) in
  (r.1 = Err (RdatatypeExists rdclass rdtype) ↔ existing ≠ GenericRdata) ∧
  (existing ≠ GenericRdata → r = (Err (RdatatypeExists rdclass rdtype), s1)) ∧
  (existing = GenericRdata →
     r = (Ok (), s2) ∧
     _rdata_classes s2 !! (rdclass, rdtype) = Some impl ∧
     type_names s2 !! rdtype = Some (rdtype_text, is_singleton)) ∧
  (existing = GenericRdata →
     ∀ (E' : Env) (implementation' : PyModule) (rdtype_text' : string)
       (is_singleton' : bool),
       (register_type E' implementation' rdtype rdtype_text' is_singleton' rdclass s2).1
         = Err (RdatatypeExists rdclass rdtype)
       ↔ impl ≠ GenericRdata).
Proof.
  intros Hres Himpl r s2.
  assert (Hne : existing ≠ GenericRdata →
                r = (Err (RdatatypeExists rdclass rdtype), s1)).
  { intros Hex. subst r. unfold register_type, mbind, M_bind. rewrite Hres.
    by rewrite bool_decide_eq_true_2. }
  assert (Heq : existing = GenericRdata → r = (Ok (), s2)).
  { intros Hex. subst r s2. unfold register_type, mbind, M_bind. rewrite Hres.
    rewrite bool_decide_eq_false_2 by (by intros H; apply H).
    unfold lift, module_getattr. by rewrite Himpl. }
  split; [|split; [done|split]].
  - destruct (decide (existing = GenericRdata)) as [Hex|Hex].
    + rewrite (Heq Hex). simpl. split; [done|by intros H].
    + rewrite (Hne Hex). simpl. by split.
  - intros Hex. split; [by apply Heq|]. subst s2. simpl.
    split; [apply lookup_insert_eq|apply lookup_insert_eq].
  - intros Hex E' implementation' rdtype_text' is_singleton'.
    assert (Hhit : get_rdata_class E' rdclass rdtype s2 = (Ok impl, s2)).
    { unfold get_rdata_class, mbind, M_bind, _rdata_classes_get. subst s2. simpl.
      by rewrite lookup_insert_eq. }
    unfold register_type, mbind, M_bind. rewrite Hhit.
    case_bool_decide as Hd; simpl; [done|].
    split; [|done].
    unfold lift, module_getattr.
    destruct (implementation' !! _); simpl; done.
Qed.

Lemma Tokenizer_peek (tok tok1 : Tokenizer) (token : Token) :
  Tokenizer_get tok = Ok (token, tok1) →
  ∃ peeked, Tokenizer_unget tok1 token = Ok peeked ∧
            Tokenizer_get peeked = Ok (token, tok1).
Proof.
  unfold Tokenizer_get, Tokenizer_unget.
  destruct tok as [[u|] ts]; simpl.
  - intros [= <- <-]. simpl. by eexists.
  - destruct ts as [|t ts]; intros [= <- <-]; simpl; by eexists.
Qed.

Lemma getattr_GenericRdata_data (c : cls) (rdclass rdtype : Z) (data : pyval) :
  getattr (GenericRdata___init__ c rdclass rdtype data) "data" = Ok data.
Proof. done. Qed.

Lemma GenericRdata_from_text_returns (c : cls) (rdclass rdtype : Z) (tok tok' : Tokenizer)
    (origin : option Name) (relativize : bool) (relativize_to : option Name)
    (g : rdata) :
  GenericRdata_from_text c rdclass rdtype tok origin relativize relativize_to = Ok (g, tok') →
  ∃ data, g = GenericRdata___init__ c rdclass rdtype (VBytes data).
Proof.
  unfold GenericRdata_from_text. intros H.
  destruct (Tokenizer_get tok) as [[token tok1]|]; simpl in H; [|done].
  destruct (_ || _); [done|].
  destruct (Tokenizer_get_int tok1) as [[n tok2]|]; simpl in H; [|done].
  destruct (GenericRdata_chunks tok2 []) as [chunks tok3].
  destruct (unhexlify (concat chunks)) as [data|]; simpl in H; [|done].
  case_bool_decide; [done|]. injection H as <- <-. by exists data.
Qed.

(** C3: with [c] the class the registry resolves the key to, the
    module-level [from_text] does the following.  When [c] is
    [GenericRdata] it calls [c.from_text] on the tokenizer as given, with
    no peek.  Otherwise it gets the next token and ungets it, which leaves
    a tokenizer whose next token is that same token; if the token is the
    identifier [\#] the input is decoded by [GenericRdata.from_text] and
    the result is what the module-level [from_wire] returns on the bytes
    of that generic rdata, namely [c.from_wire] on them; in every other
    case the result is that of [c.from_text] on the peeked tokenizer. *)
Theorem from_text_dispatch (rdclass rdtype : Z) (tok_or_text : string + Tokenizer)
    (origin : option Name) (relativize : bool) (relativize_to : option Name)
    (s s1 : State) (c : cls) (token : Token) (tok1 : Tokenizer) :
  let tok := match tok_or_text with
             | inl text => Tokenizer_new E text
             | inr tok => tok
             end in
  get_rdata_class E rdclass rdtype s = (Ok c, s1) →
  Tokenizer_get tok = Ok (token, tok1) →
  let r := from_text E rdclass rdtype tok_or_text origin relativize relativize_to s in
  (c = GenericRdata →
     r = (cls_from_text E c rdclass rdtype tok origin relativize relativize_to, s1)) ∧
  (c ≠ GenericRdata →
     ∃ peeked,
       Tokenizer_unget tok1 token = Ok peeked ∧
       Tokenizer_get peeked = Ok (token, tok1) ∧
       (is_identifier token = true ∧ value token = "\#" →
          match GenericRdata_from_text GenericRdata rdclass rdtype peeked
                  origin relativize relativize_to with
          | Err e => r = (Err e, s1)
          | Ok (g, tok') =>
              ∃ data,
                __class__ g = GenericRdata ∧
                getattr g "data" = Ok (VBytes data) ∧
                from_wire E rdclass rdtype (VBytes data) 0 (Z.of_nat (length data)) origin s1
                  = (cls_from_wire E c rdclass rdtype (maybe_wrap data) 0
                       (Z.of_nat (length data)) origin, s1) ∧
                r = (x ← cls_from_wire E c rdclass rdtype (maybe_wrap data) 0
                           (Z.of_nat (length data)) origin;
                     Ok (x, tok'), s1)
          end) ∧
       (¬ (is_identifier token = true ∧ value token = "\#") →
          r = (cls_from_text E c rdclass rdtype peeked origin relativize relativize_to, s1))).
Proof.
  intros tok Hres Hget r.
  assert (Hlift : ∀ (x : result (rdata * Tokenizer)) (st : State),
             match lift x st with
             | (Ok a, s') => (let '(r0, tok0) := a in mret (r0, tok0) : M _) s'
             | (Err e, s') => (Err e, s')
             end = (x, st)).
  { intros [[? ?]|?] st; done. }
  split.
  - intros Hc. subst r. unfold from_text, mbind, M_bind. fold tok. rewrite Hres.
    rewrite bool_decide_eq_false_2 by (by intros H; apply H).
    apply Hlift.
  - intros Hc. destruct (Tokenizer_peek _ _ _ Hget) as (peeked & Hunget & Hpeek).
    exists peeked. split; [done|]. split; [done|].
    assert (Hr : r = (if is_identifier token && bool_decide (value token = "\#")
                      then
                        '(rdata_, tok) ← lift (GenericRdata_from_text GenericRdata
                                           rdclass rdtype peeked origin relativize
                                           relativize_to);
                        data ← lift (getattr rdata_ "data");
                        rdlen ← lift (py_len data);
                        x ← from_wire E rdclass rdtype data 0 rdlen origin;
                        mret (x, tok)
                      else
                        '(x, tok) ← lift (cls_from_text E c rdclass rdtype peeked
                                       origin relativize relativize_to);
                        mret (x, tok)) s1).
    { subst r. unfold from_text. fold tok. unfold mbind at 1, M_bind at 1.
      rewrite Hres. rewrite bool_decide_eq_true_2 by done.
      unfold mbind at 1, M_bind at 1, lift at 1. rewrite Hget.
      unfold mbind at 1, M_bind at 1, lift at 1. by rewrite Hunget. }
    rewrite Hr. clear Hr. split.
    + intros [Hid Hv]. rewrite Hid, bool_decide_eq_true_2 by done. simpl.
      destruct (GenericRdata_from_text GenericRdata rdclass rdtype peeked
                  origin relativize relativize_to) as [[g tok']|e] eqn:Hg.
      * destruct (GenericRdata_from_text_returns _ _ _ _ _ _ _ _ _ Hg) as [data ->].
        exists data. split; [done|]. split; [done|].
        assert (Hfw : from_wire E rdclass rdtype (VBytes data) 0
                        (Z.of_nat (length data)) origin s1
                      = (cls_from_wire E c rdclass rdtype (maybe_wrap data) 0
                           (Z.of_nat (length data)) origin, s1)).
        { unfold from_wire, mbind, M_bind. simpl.
          rewrite (get_rdata_class_memoized _ _ _ _ _ E Hres).
          unfold lift. by destruct (cls_from_wire _ _ _ _ _ _ _ _). }
        split; [done|].
        unfold mbind, M_bind, lift. rewrite getattr_GenericRdata_data. simpl.
        rewrite Hfw.
        by destruct (cls_from_wire _ _ _ _ _ _ _ _).
      * done.
    + intros Hnot.
      assert (is_identifier token && bool_decide (value token = "\#") = false) as ->.
      { destruct (is_identifier token); [|done]. simpl.
        apply bool_decide_eq_false_2. intros Hv. by apply Hnot. }
      apply Hlift.
Qed.

End RegistryProperties.
(** ** Further properties of comparison and of [to_generic] *)

Section MoreComparison.
Context (E : Env).

(** X1: [a != o] is the negation of [a == o] for every rdata [a] and every
    object [o]: when one returns the other returns the opposite truth value,
    and when one raises the other raises the same exception. *)
Theorem ne_negates_eq (a : rdata) (o : pyobj) :
  Rdata___ne__ E a o = (b ← Rdata___eq__ E a o; Ok (negb b)).
Proof.
  destruct o as [b|v]; [|done]. unfold Rdata___ne__, Rdata___eq__.
  destruct (_ || _); [done|].
  by destruct (Rdata__cmp E a b).
Qed.

(** X2: for two serializable rdatas of one class and type, [a <= b] is
    [a < b or a == b], [a >= b] is [not a < b], [a <= b] and [b >= a]
    agree, and [a <= a] holds. *)
Theorem le_ge_follow_lt_eq (a b : rdata) (wa wb : bytes) :
  same_class_and_type a b →
  Rdata_to_digestable E a (Some root) = Ok wa →
  Rdata_to_digestable E b (Some root) = Ok wb →
  ∃ lt eq : bool,
    op_lt E a b = Ok lt ∧ Rdata___eq__ E a (ObjRdata b) = Ok eq ∧
    op_le E a b = Ok (lt || eq) ∧
    op_ge E a b = Ok (negb lt) ∧
    op_ge E b a = op_le E a b ∧
    op_le E a a = Ok true ∧
    (op_le E a b = Ok true ↔ lex_lt wa wb ∨ wa = wb).
Proof.
  intros Hab Ha Hb.
  assert (Hba : same_class_and_type b a) by (by destruct Hab).
  assert (Haa : same_class_and_type a a) by done.
  destruct (Rdata__cmp_spec E a b wa wb Ha Hb) as (c & Hc & Hr & H0 & H1 & Hm).
  destruct (Rdata__cmp_spec E b a wb wa Hb Ha) as (c' & Hc' & Hr' & H0' & H1' & Hm').
  destruct (Rdata__cmp_spec E a a wa wa Ha Ha) as (c0 & Hc0 & Hr0 & H00 & _ & _).
  assert (c0 = 0) as -> by (by apply H00).
  assert (Hopp : c' = - c).
  { destruct Hr as [->|[->| ->]].
    - assert (wa = wb) as Heq by tauto. symmetry in Heq. apply H0' in Heq. lia.
    - assert (lex_lt wb wa) as Hlt by tauto. apply Hm' in Hlt. lia.
    - assert (lex_lt wa wb) as Hlt by tauto. apply H1' in Hlt. lia. }
  exists (c <? 0), (c =? 0).
  unfold op_lt, op_le, op_ge, ordering_operator,
    Rdata___lt__, Rdata___le__, Rdata___ge__.
  rewrite !(ordering_method_same E _ a b Hab), !(ordering_method_same E _ b a Hba),
    !(ordering_method_same E _ a a Haa), (Rdata___eq___same E a b Hab).
  rewrite Hc, Hc', Hc0. simpl. subst c'.
  repeat split.
  - f_equal. destruct Hr as [->|[->| ->]]; done.
  - f_equal. destruct Hr as [->|[->| ->]]; done.
  - f_equal. destruct Hr as [->|[->| ->]]; done.
  - intros [= Hle]. destruct Hr as [->|[->| ->]]; [right|done|left]; tauto.
  - intros [Hlt|Heq]; f_equal.
    + apply Hm in Hlt. by subst.
    + apply H0 in Heq. by subst.
Qed.

(** X3: [==] between rdatas is symmetric and transitive, and reflexive on
    every rdata that serializes. *)
Theorem eq_is_equivalence :
  (∀ a b : rdata,
      Rdata___eq__ E a (ObjRdata b) = Ok true →
      Rdata___eq__ E b (ObjRdata a) = Ok true) ∧
  (∀ a b c : rdata,
      Rdata___eq__ E a (ObjRdata b) = Ok true →
      Rdata___eq__ E b (ObjRdata c) = Ok true →
      Rdata___eq__ E a (ObjRdata c) = Ok true) ∧
  (∀ (a : rdata) (wa : bytes),
      Rdata_to_digestable E a (Some root) = Ok wa →
      Rdata___eq__ E a (ObjRdata a) = Ok true).
Proof.
  assert (Hinv : ∀ a b : rdata,
             Rdata___eq__ E a (ObjRdata b) = Ok true ↔
             same_class_and_type a b ∧
             ∃ w, Rdata_to_digestable E a (Some root) = Ok w ∧
                  Rdata_to_digestable E b (Some root) = Ok w).
  { intros a b. split.
    - intros H. destruct (decide (same_class_and_type a b)) as [Hs|Hd].
      + split; [done|]. rewrite (Rdata___eq___same E a b Hs) in H.
        unfold Rdata__cmp in H.
        destruct (Rdata_to_digestable E a (Some root)) as [wa|]; [|done].
        destruct (Rdata_to_digestable E b (Some root)) as [wb|]; [|done].
        simpl in H. unfold bytes_eq in H. case_bool_decide as Heq.
        * subst. by exists wb.
        * by destruct (bytes_gt wa wb).
      + by rewrite (Rdata___eq___differ E a b Hd) in H.
    - intros [Hs (w & Ha & Hb)]. rewrite (Rdata___eq___same E a b Hs).
      unfold Rdata__cmp. rewrite Ha, Hb. simpl. unfold bytes_eq.
      by rewrite bool_decide_eq_true_2. }
  split; [|split].
  - intros a b [[Hc Ht] (w & Ha & Hb)]%Hinv. apply Hinv.
    split; [by split|]. by exists w.
  - intros a b c [[Hc Ht] (w & Ha & Hb)]%Hinv [[Hc' Ht'] (w' & Hb' & Hc2)]%Hinv.
    apply Hinv. split; [split; congruence|].
    exists w. split; [done|]. congruence.
  - intros a wa Ha. apply Hinv. split; [done|]. by exists wa.
Qed.

(** X4: [_cmp] returns -1, 0 or 1, and swapping its arguments negates the
    result. *)
Theorem cmp_antisymmetric (a b : rdata) (c : Z) :
  Rdata__cmp E a b = Ok c →
  (c = -1 ∨ c = 0 ∨ c = 1) ∧ Rdata__cmp E b a = Ok (- c).
Proof.
  unfold Rdata__cmp.
  destruct (Rdata_to_digestable E a (Some root)) as [wa|]; [|done].
  destruct (Rdata_to_digestable E b (Some root)) as [wb|]; [|done].
  simpl. unfold bytes_eq, bytes_gt.
  rewrite (bytes_compare_antisym wa wb).
  case_bool_decide as Heq.
  - subst. rewrite bool_decide_eq_true_2 by done. intros [= <-]. auto.
  - rewrite bool_decide_eq_false_2 by congruence.
    destruct (bytes_compare wa wb) eqn:Hc; simpl.
    + by apply bytes_compare_Eq in Hc.
    + intros [= <-]. auto.
    + intros [= <-]. auto.
Qed.


End MoreComparison.

(** ** Further properties of the registry, of dispatch and of [replace] *)

Section MoreRegistry.
Context (E : Env).

(** X6: [get_rdata_class] only ever adds bindings: whether it returns or
    raises, every key bound before is bound to the same class afterwards,
    the type-name registry is untouched, and a key bound afterwards but not
    before is the key asked for or its ANY key. *)
Theorem get_rdata_class_monotone (rdclass rdtype : Z) (s : State) :
  let s' := (get_rdata_class E rdclass rdtype s).2 in
  type_names s' = type_names s ∧
  (∀ key c, _rdata_classes s !! key = Some c → _rdata_classes s' !! key = Some c) ∧
  (∀ key, _rdata_classes s !! key = None → is_Some (_rdata_classes s' !! key) →
          key = (rdclass, rdtype) ∨ key = (rdataclass_ANY, rdtype)).
Proof.
  unfold get_rdata_class, mbind, M_bind, _rdata_classes_get, _rdata_classes_set,
    cached, try_except_ImportError, lift, get_type_names, mret, M_ret, module_getattr.
  repeat (case_match; simplify_eq/=); (split; [done|]); split;
    try (intros key c0 Hk; done);
    try (intros key Hn [c0 Hs]; congruence).
  all: try (intros key c0 Hk;
            repeat (rewrite lookup_insert_ne; [|intros <-; unfold rdataclass_ANY in *;
                                                unfold rdatatype_ANY in *; congruence]);
            done).
  all: intros key Hn [c0 Hs];
    repeat (rewrite lookup_insert in Hs; case_decide; [auto|]); congruence.
Qed.

(** X7: [register_type] never changes a binding to a class other than
    [GenericRdata], whatever its outcome; and when it raises, the type-name
    registry is as before. *)
Theorem register_type_keeps_bindings (implementation : PyModule) (rdtype : Z)
    (rdtype_text : string) (is_singleton : bool) (rdclass : Z) (s : State) :
  let r := register_type E implementation rdtype rdtype_text is_singleton rdclass s in
  (∀ key c, _rdata_classes s !! key = Some c → c ≠ GenericRdata →
            _rdata_classes r.2 !! key = Some c) ∧
  (∀ e, r.1 = Err e → type_names r.2 = type_names s).
Proof.
  intros r. subst r.
  destruct (get_rdata_class_monotone rdclass rdtype s) as (Hnames & Hkeep & _).
  unfold register_type, mbind, M_bind.
  destruct (get_rdata_class E rdclass rdtype s) as [[existing|e0] s1] eqn:Hres;
    simpl in *; [|by split; auto].
  case_bool_decide as Hex; simpl; [by split; auto|].
  subst existing.
  unfold lift, module_getattr.
  destruct (implementation !! _) as [impl|]; simpl; [|by split; auto].
  split; [|done].
  intros key c Hk Hc.
  destruct (decide (key = (rdclass, rdtype))) as [->|Hne].
  - rewrite (get_rdata_class_exact_hit E _ _ _ _ Hk) in Hres. congruence.
  - rewrite lookup_insert_ne by congruence. by apply Hkeep.
Qed.

(** X8: wire round trip through the generic fallback.  When the key of a
    serializable rdata [v] resolves to [GenericRdata] and the wire view
    returns its whole content for the full range, [from_wire] on the
    canonical bytes of [v] returns a generic rdata holding those bytes,
    which is equal to [v]. *)
Theorem from_wire_generic_round_trip (v : rdata) (w : bytes) (origin : option Name)
    (s s1 : State) :
  Rdata_to_digestable E v (Some root) = Ok w →
  get_rdata_class E (rdclass v) (rdtype v) s = (Ok GenericRdata, s1) →
  wiredata_slice E (maybe_wrap w) 0 (0 + Z.of_nat (length w)) = Ok w →
  from_wire E (rdclass v) (rdtype v) (VBytes w) 0 (Z.of_nat (length w)) origin s
    = (Ok (GenericRdata___init__ GenericRdata (rdclass v) (rdtype v) (VBytes w)), s1) ∧
  Rdata___eq__ E (GenericRdata___init__ GenericRdata (rdclass v) (rdtype v) (VBytes w))
    (ObjRdata v) = Ok true.
Proof.
  intros Hw Hres Hslice. split.
  - unfold from_wire, mbind, M_bind. simpl. rewrite Hres.
    unfold lift, cls_from_wire, GenericRdata_from_wire. by rewrite Hslice.
  - rewrite Rdata___eq___same by done.
    unfold Rdata__cmp. rewrite GenericRdata_to_digestable, Hw. simpl.
    unfold bytes_eq. by rewrite bool_decide_eq_true_2.
Qed.

Lemma kwargs_get_found (kwargs : list (string * pyval)) (key : string) (x cur : pyval) :
  NoDup kwargs.*1 → (key, x) ∈ kwargs → kwargs_get kwargs key cur = x.
Proof.
  induction kwargs as [|[k v] kwargs IH]; intros Hnd Hin; [by inversion Hin|].
  simpl in *. apply NoDup_cons in Hnd as [Hk Hnd].
  apply elem_of_cons in Hin as [[= <- <-]|Hin].
  - by rewrite bool_decide_eq_true_2.
  - rewrite bool_decide_eq_false_2; [by apply IH|].
    intros ->. apply Hk. apply list_elem_of_fmap. by exists (key, x).
Qed.

Lemma kwargs_get_default (kwargs : list (string * pyval)) (key : string) (cur : pyval) :
  key ∉ kwargs.*1 → kwargs_get kwargs key cur = cur.
Proof.
  induction kwargs as [|[k v] kwargs IH]; intros Hk; [done|].
  simpl in *. apply not_elem_of_cons in Hk as [Hne Hk].
  rewrite bool_decide_eq_false_2 by congruence. by apply IH.
Qed.

(** X9: [replace] with any number of keywords.  For a value of a class in
    the usual style, when every keyword names a constructor parameter other
    than [rdclass] and [rdtype], [replace] returns an object of the same
    class in which every keyword has its given value and every other
    parameter keeps the value it has in the original; with no keyword at
    all the result is a copy. *)
Theorem replace_many_fields (v : rdata) (kwargs : list (string * pyval)) :
  constructor_stores E (__class__ v) →
  (∀ key, key ∈ signature_parameters E (__class__ v) → ∃ cur, getattr v key = Ok cur) →
  NoDup kwargs.*1 →
  (∀ key x, (key, x) ∈ kwargs →
            key ∈ signature_parameters E (__class__ v) ∧
            key ≠ "rdclass" ∧ key ≠ "rdtype") →
  ∃ v', Rdata_replace E v kwargs = Ok v' ∧
        __class__ v' = __class__ v ∧
        (∀ key x, (key, x) ∈ kwargs → getattr v' key = Ok x) ∧
        (∀ key, key ∈ signature_parameters E (__class__ v) → key ∉ kwargs.*1 →
                getattr v' key = getattr v key).
Proof.
  intros Hstores Hget Hnd Hvalid. unfold Rdata_replace.
  rewrite replace_check_accepts by done.
  destruct (replace_args_spec v kwargs _ Hget) as (args & -> & Hlen & Hnth).
  simpl.
  destruct (Hstores args Hlen) as (r & -> & Hcls & Hfields).
  { intros i key Hi Hkey. destruct (Hnth i key Hi) as (cur & Hcur & ->).
    rewrite kwargs_get_default.
    - destruct Hkey as [-> | ->]; [rewrite getattr_rdclass in Hcur
                                  |rewrite getattr_rdtype in Hcur];
        injection Hcur as <-; eauto.
    - intros [[k x] [Hk Hin]]%list_elem_of_fmap. simpl in Hk. subst k.
      destruct (Hvalid key x Hin) as (_ & ? & ?). destruct Hkey; congruence. }
  exists r. split; [done|]. split; [done|]. split.
  - intros key x Hin. destruct (Hvalid key x Hin) as (Hp & _ & _).
    apply list_elem_of_lookup in Hp as [i Hi].
    destruct (Hnth i key Hi) as (cur & Hcur & Hargs).
    apply (Hfields i key x Hi). rewrite Hargs. f_equal.
    by apply kwargs_get_found.
  - intros key Hp Hk. apply list_elem_of_lookup in Hp as [i Hi].
    destruct (Hnth i key Hi) as (cur & Hcur & Hargs).
    rewrite Hcur. apply (Hfields i key cur Hi). rewrite Hargs. f_equal.
    by apply kwargs_get_default.
Qed.

End MoreRegistry.

(** ** Properties of the remaining formatting utilities *)

Lemma str_app_cons (x : ascii) (a b : string) :
  String x a +:+ b = String x (a +:+ b).
Proof. reflexivity. Qed.

Lemma str_app_nil_l (b : string) : "" +:+ b = b.
Proof. reflexivity. Qed.

Lemma str_app_assoc (a b c : string) : (a +:+ b) +:+ c = a +:+ (b +:+ c).
Proof.
  induction a as [|x a IH]; [done|]. rewrite !str_app_cons. by rewrite IH.
Qed.

Lemma str_app_nil_r (a : string) : a +:+ "" = a.
Proof.
  induction a as [|x a IH]; [done|]. rewrite str_app_cons. by rewrite IH.
Qed.

Lemma str_length_app (a b : string) :
  String.length (a +:+ b) = (String.length a + String.length b)%nat.
Proof.
  induction a as [|x a IH]; [done|]. rewrite str_app_cons. simpl. by rewrite IH.
Qed.

Lemma all_printable_app (a b : string) :
  all_printable (a +:+ b) = all_printable a && all_printable b.
Proof.
  induction a as [|x a IH]; [done|]. rewrite str_app_cons. simpl.
  rewrite IH. by rewrite !andb_assoc.
Qed.

Lemma _escapify_loop_text (qstring : bytes) (text : string) :
  _escapify_loop qstring text = text +:+ _escapify_loop qstring "".
Proof.
  revert text. induction qstring as [|c q IH]; intros text; simpl.
  - by rewrite str_app_nil_r.
  - rewrite str_app_nil_l.
    rewrite (IH (text +:+ _escapify_byte c)), (IH (_escapify_byte c)).
    apply str_app_assoc.
Qed.

Lemma _escapify_cons (c : byte) (qstring : bytes) :
  _escapify (inr (c :: qstring)) = _escapify_byte c +:+ _escapify (inr qstring).
Proof.
  unfold _escapify. simpl. rewrite str_app_nil_l. by rewrite _escapify_loop_text.
Qed.

Lemma unescape_one_escapify_byte (c : byte) (s : string) :
  unescape_one (_escapify_byte c +:+ s) = Some (c, s).
Proof. destruct c; reflexivity. Qed.

Lemma _escapify_byte_shape (c : byte) :
  all_printable (_escapify_byte c) = true ∧
  (1 ≤ String.length (_escapify_byte c) ≤ 4)%nat ∧
  ∀ s, quotes_escaped (_escapify_byte c +:+ s) false = quotes_escaped s false.
Proof. destruct c; (split; [reflexivity|split; [simpl; lia|reflexivity]]). Qed.

(** X10: [_escapify] loses nothing: two byte strings with the same escaped
    text are the same byte string. *)
Theorem escapify_injective (q q' : bytes) :
  _escapify (inr q) = _escapify (inr q') → q = q'.
Proof.
  revert q'. induction q as [|c q IH]; intros [|c' q'] H.
  - done.
  - rewrite _escapify_cons in H.
    pose proof (unescape_one_escapify_byte c' (_escapify (inr q'))) as Hu.
    by rewrite <-H in Hu.
  - rewrite _escapify_cons in H.
    pose proof (unescape_one_escapify_byte c (_escapify (inr q))) as Hu.
    by rewrite H in Hu.
  - rewrite !_escapify_cons in H.
    pose proof (unescape_one_escapify_byte c (_escapify (inr q))) as Hu.
    rewrite H, unescape_one_escapify_byte in Hu.
    injection Hu as -> Hq. f_equal. by apply IH.
Qed.

(** X11: the text [_escapify] returns is safe inside a quoted string: it is
    made of printable ASCII characters only, every double quote in it is
    escaped by a backslash and no backslash is left dangling; it has at
    least as many and at most four times as many characters as the input
    has bytes; a [str] argument gives what its encoding gives; and
    [ab"c\x00] becomes [ab\"c\000]. *)
Theorem escapify_text_is_safe :
  (∀ q : bytes,
      all_printable (_escapify (inr q)) = true ∧
      quotes_escaped (_escapify (inr q)) false = true ∧
      (length q ≤ String.length (_escapify (inr q)) ≤ 4 * length q)%nat) ∧
  (∀ s : string, _escapify (inl s) = _escapify (inr (str_encode s))) ∧
  _escapify (inr [x61; x62; x22; x63; x00])
    = String "a" (String "b" (String backslash_char (String quote_char
        (String "c" (String backslash_char "000"))))).
Proof.
  split; [|split; [done|reflexivity]].
  induction q as [|c q (IHp & IHq & IHl)]; [by repeat split|].
  rewrite _escapify_cons.
  destruct (_escapify_byte_shape c) as (Hp & Hl & Hq).
  rewrite all_printable_app, Hp, IHp, Hq, IHq, str_length_app. simpl length.
  repeat split; lia.
Qed.

(** Induction on objects, through the elements of tuples and lists. *)
Lemma obj_elements_ind (P : obj → Prop) :
  (∀ v, P (OAtom v)) →
  (∀ b, P (OByteArray b)) →
  (∀ elts, Forall P elts → P (OTuple elts)) →
  (∀ elts, Forall P elts → P (OList elts)) →
  ∀ o, P o.
Proof.
  intros Hatom Hba Htuple Hlist.
  refine (fix IH (o : obj) : P o :=
            match o with
            | OAtom v => Hatom v
            | OByteArray b => Hba b
            | OTuple elts => Htuple elts _
            | OList elts => Hlist elts _
            end).
  - induction elts as [|e elts IHe]; constructor; [apply IH|apply IHe].
  - induction elts as [|e elts IHe]; constructor; [apply IH|apply IHe].
Qed.

Lemma frozen_hashable (o : obj) : hashable (frozen o) = true.
Proof.
  induction o as [v|b|elts IH|elts IH] using obj_elements_ind; simpl; try done.
  - induction IH as [|e elts He _ IHe]; simpl; [done|]. by rewrite He, IHe.
  - induction IH as [|e elts He _ IHe]; simpl; [done|]. by rewrite He, IHe.
Qed.

Lemma frozen_of_hashable (o : obj) : hashable o = true → frozen o = o.
Proof.
  induction o as [v|b|elts IH|elts IH] using obj_elements_ind; simpl; try done.
  intros Hh. f_equal.
  induction IH as [|e elts He _ IHe]; simpl in *; [done|].
  apply andb_true_iff in Hh as [Hh1 Hh2]. by rewrite He, IHe.
Qed.

(** X12: [_constify] freezes an object completely: its result is the object
    with every byte array turned into bytes and every list into a tuple at
    every depth, so [hash] of the result never fails on a list or a byte
    array; an object that is already hashable is returned as it is, and
    applying [_constify] twice is the same as applying it once. *)
Theorem constify_freezes (o : obj) :
  _constify o = frozen o ∧
  hashable (_constify o) = true ∧
  (hashable o = true → _constify o = o) ∧
  _constify (_constify o) = _constify o.
Proof.
  assert (Hfrozen : ∀ o, _constify o = frozen o).
  { clear o. intros o.
    induction o as [v|b|elts IH|elts IH] using obj_elements_ind; simpl; try done.
    - destruct (forallb hashable elts) eqn:Hh.
      + symmetry. by apply (frozen_of_hashable (OTuple elts)).
      + f_equal. by apply map_ext_Forall.
    - f_equal. by apply map_ext_Forall. }
  split; [done|]. rewrite !Hfrozen.
  split; [apply frozen_hashable|]. split; [apply frozen_of_hashable|].
  apply frozen_of_hashable, frozen_hashable.
Qed.

(** ** Chunked encodings and the text form of the generic rdata *)

Lemma chunks_from_concat (fuel : nat) (line : bytes) (k i : nat) :
  (0 < k)%nat → (length line - i ≤ fuel)%nat →
  concat (chunks_from fuel line k i) = drop i line.
Proof.
  intros Hk. revert i. induction fuel as [|fuel IH]; intros i Hfuel; simpl.
  - symmetry. apply drop_ge. lia.
  - destruct (Nat.ltb_spec i (length line)) as [Hlt|Hge].
    + simpl. rewrite IH by lia.
      rewrite <-(take_drop k (drop i line)) at 2.
      by rewrite drop_drop.
    + symmetry. apply drop_ge. lia.
Qed.

Lemma chunks_from_lookup (fuel : nat) (line : bytes) (k i j : nat) (chunk : bytes) :
  chunks_from fuel line k i !! j = Some chunk →
  chunk = take k (drop (i + j * k) line) ∧ (i + j * k < length line)%nat.
Proof.
  revert i j. induction fuel as [|fuel IH]; intros i j; simpl; [done|].
  destruct (Nat.ltb_spec i (length line)) as [Hlt|Hge]; [|done].
  destruct j as [|j]; simpl.
  - intros [= <-]. rewrite Nat.add_0_r. by split.
  - intros Hj. apply IH in Hj as [-> Hlen].
    replace (i + k + j * k)%nat with (i + (k + j * k))%nat in * by lia. by split.
Qed.

Lemma bytes_join_filter (chunks : list bytes) :
  Forall (Forall (λ c, c ≠ x20)) chunks →
  filter (λ c, c ≠ x20) (bytes_join [x20] chunks) = concat chunks.
Proof.
  induction 1 as [|chunk chunks Hc Hcs IH]; [done|].
  assert (Hf : filter (λ c, c ≠ x20) chunk = chunk).
  { clear -Hc. induction Hc as [|c chunk Hne _ IHc]; [done|].
    rewrite filter_cons_True by done. by rewrite IHc. }
  destruct chunks as [|chunk' chunks].
  - simpl. by rewrite app_nil_r.
  - change (bytes_join [x20] (chunk :: chunk' :: chunks))
      with (chunk ++ [x20] ++ bytes_join [x20] (chunk' :: chunks)).
    rewrite !filter_app, Hf, IH. by rewrite filter_cons_False by (by intros H; apply H).
Qed.

(** The structure of what [chunk_join] returns for a positive chunk size. *)
Lemma chunk_join_chunks (line : bytes) (chunksize : Z) :
  0 < chunksize →
  ∃ chunks,
    chunk_join line chunksize = Ok (bytes_decode (bytes_join [x20] chunks)) ∧
    concat chunks = line ∧
    ∀ j chunk, chunks !! j = Some chunk →
      chunk = take (Z.to_nat chunksize) (drop (j * Z.to_nat chunksize) line) ∧
      (j * Z.to_nat chunksize < length line)%nat.
Proof.
  intros Hpos. exists (chunks_from (length line) line (Z.to_nat chunksize) 0).
  unfold chunk_join.
  destruct (Z.eqb_spec chunksize 0) as [?|_]; [lia|].
  destruct (Z.ltb_spec chunksize 0) as [?|_]; [lia|].
  split; [done|]. split.
  - rewrite chunks_from_concat by lia. done.
  - intros j chunk Hj. by apply chunks_from_lookup in Hj.
Qed.

Lemma chunk_join_space_free (line chunk : bytes) (k j : nat) :
  Forall (λ c, c ≠ x20) line → Forall (λ c, c ≠ x20) (take k (drop j line)).
Proof. intros H. by apply Forall_take, Forall_drop. Qed.

Lemma hex_digit_value (n : N) : (n < 16)%N → hex_value (hex_digit n) = Some n.
Proof.
  intros H. destruct n as [|p]; [done|].
  destruct p as [[[[p|p|]|[p|p|]|]|[[p|p|]|[p|p|]|]|]|[[[p|p|]|[p|p|]|]|[[p|p|]|[p|p|]|]|]|];
    try reflexivity; lia.
Qed.

Lemma hex_digit_not_space (n : N) : (n < 16)%N → hex_digit n ≠ x20.
Proof.
  intros H Heq. pose proof (hex_digit_value n H) as Hv. by rewrite Heq in Hv.
Qed.

Lemma byte_nibbles (c : byte) :
  (Byte.to_N c / 16 < 16)%N ∧ (Byte.to_N c mod 16 < 16)%N.
Proof.
  pose proof (Byte.to_N_bounded c). split.
  - apply N.Div0.div_lt_upper_bound. lia.
  - apply N.mod_lt. lia.
Qed.

Lemma hexlify_shape (data : bytes) :
  length (hexlify data) = (2 * length data)%nat ∧
  Forall (λ c, c ≠ x20) (hexlify data) ∧
  Forall (λ c, is_Some (hex_value c)) (hexlify data).
Proof.
  induction data as [|c data (IHl & IHs & IHh)]; [by repeat split|].
  destruct (byte_nibbles c) as [Hhi Hlo]. simpl. split; [lia|]. split.
  - repeat constructor; [by apply hex_digit_not_space..|done].
  - repeat constructor; [rewrite hex_digit_value by done; eauto..|done].
Qed.

Lemma unhexlify_pairs_hexlify (data : bytes) :
  unhexlify_pairs (hexlify data) = Ok data.
Proof.
  induction data as [|c data IH]; [done|].
  assert (Hc : ∀ rest, unhexlify_pairs
                         (hex_digit (Byte.to_N c / 16) ::
                          hex_digit (Byte.to_N c mod 16) :: rest)
                       = (d ← unhexlify_pairs rest; Ok (c :: d))).
  { destruct c; reflexivity. }
  change (hexlify (c :: data))
    with (hex_digit (Byte.to_N c / 16) :: hex_digit (Byte.to_N c mod 16) :: hexlify data).
  by rewrite Hc, IH.
Qed.

(** [unhexlify] undoes [hexlify]. *)
Lemma unhexlify_hexlify (data : bytes) : unhexlify (hexlify data) = Ok data.
Proof.
  unfold unhexlify. destruct (hexlify_shape data) as (Hlen & _ & _).
  rewrite Hlen, Nat.odd_mul. simpl. apply unhexlify_pairs_hexlify.
Qed.

(** X13: for a positive chunk size, [_hexify] returns the lowercase hex
    digits of the data cut into groups of [chunksize] characters (the last
    one may be shorter) separated by single spaces; taking the spaces out
    and decoding the hex gives the data back.  A chunk size of zero raises
    [ValueError], and a negative one returns the empty text whatever the
    data. *)
Theorem hexify_round_trip (data : bytes) :
  (∀ chunksize, 0 < chunksize →
     ∃ chunks,
       _hexify data chunksize = Ok (bytes_decode (bytes_join [x20] chunks)) ∧
       concat chunks = hexlify data ∧
       (∀ j chunk, chunks !! j = Some chunk →
          chunk = take (Z.to_nat chunksize) (drop (j * Z.to_nat chunksize) (hexlify data)) ∧
          (j * Z.to_nat chunksize < 2 * length data)%nat) ∧
       unhexlify (filter (λ c, c ≠ x20) (bytes_join [x20] chunks)) = Ok data) ∧
  (∃ msg, _hexify data 0 = Err (ValueError msg)) ∧
  (∀ chunksize, chunksize < 0 → _hexify data chunksize = Ok "").
Proof.
  destruct (hexlify_shape data) as (Hlen & Hsp & _).
  split; [|split].
  - intros chunksize Hpos.
    destruct (chunk_join_chunks (hexlify data) chunksize Hpos)
      as (chunks & Hjoin & Hcat & Hnth).
    exists chunks. split; [done|]. split; [done|]. split.
    + intros j chunk Hj. rewrite <-Hlen. by apply Hnth.
    + rewrite bytes_join_filter, Hcat; [apply unhexlify_hexlify|].
      apply Forall_lookup_2. intros j chunk Hj.
      destruct (Hnth j chunk Hj) as [-> _]. by apply chunk_join_space_free.
  - by eexists.
  - intros chunksize Hneg. unfold _hexify, chunk_join.
    destruct (Z.eqb_spec chunksize 0) as [?|_]; [lia|].
    by destruct (Z.ltb_spec chunksize 0) as [_|?]; [|lia].
Qed.

Lemma digit_char_code (m : N) : (m < 10)%N → N_of_ascii (digit_char m) = (48 + m)%N.
Proof.
  intros H. unfold digit_char. apply N_ascii_embedding. lia.
Qed.

Lemma format_d_aux_spec (fuel : nat) (n : N) (acc : string) :
  (0 < fuel)%nat → (n < 10 ^ N.of_nat fuel)%N →
  int_of_digits 0 (format_d_aux fuel n acc) = int_of_digits (Z.of_N n) acc ∧
  all_digits (format_d_aux fuel n acc) = all_digits acc ∧
  space_free (format_d_aux fuel n acc) = space_free acc ∧
  format_d_aux fuel n acc ≠ "".
Proof.
  revert n acc. induction fuel as [|fuel IH]; intros n acc Hfuel Hn; [lia|].
  assert (Hmod : (n mod 10 < 10)%N) by (apply N.mod_lt; lia).
  pose proof (digit_char_code _ Hmod) as Hcode.
  assert (Hdig : is_digit (digit_char (n mod 10)) = true).
  { unfold is_digit. rewrite Hcode.
    apply andb_true_iff. split; apply N.leb_le; [apply N.le_add_r|].
    change 57%N with (48 + 9)%N. apply N.add_le_mono_l. by apply N.lt_succ_r. }
  assert (Hsp : Ascii.eqb (digit_char (n mod 10)) " " = false).
  { apply Ascii.eqb_neq. intros Heq. rewrite Heq in Hcode.
    change (N_of_ascii " ") with 32%N in Hcode.
    pose proof (N.le_add_r 48 (n mod 10)) as Hle. rewrite <-Hcode in Hle.
    by apply N.leb_le in Hle. }
  simpl. destruct (N.ltb_spec n 10) as [Hlt|Hge].
  - split; [|split; [|split]].
    + simpl. rewrite Hcode. f_equal. rewrite N.mod_small by done. lia.
    + simpl. by rewrite Hdig.
    + simpl. by rewrite Hsp.
    + done.
  - assert (Hfuel' : (0 < fuel)%nat).
    { destruct fuel; [|lia]. simpl in Hn. lia. }
    assert (Hn' : (n / 10 < 10 ^ N.of_nat fuel)%N).
    { apply N.Div0.div_lt_upper_bound.
      rewrite <-N.pow_succ_r'. by rewrite <-Nat2N.inj_succ. }
    destruct (IH (n / 10)%N (String (digit_char (n mod 10)) acc) Hfuel' Hn')
      as (Hint & Hall & Hspace & Hne).
    split; [|split; [|split]].
    + rewrite Hint. simpl. rewrite Hcode. f_equal.
      pose proof (N.div_mod n 10 ltac:(done)) as Hdm.
      apply (f_equal Z.of_N) in Hdm. rewrite N2Z.inj_add, N2Z.inj_mul in Hdm.
      rewrite N2Z.inj_add. change (Z.of_N 48) with 48.
      change (Z.of_N 10) with 10 in Hdm. lia.
    + rewrite Hall. simpl. by rewrite Hdig.
    + rewrite Hspace. simpl. by rewrite Hsp.
    + done.
Qed.

(** ['%d' % n] is a non-empty run of decimal digits that reads back as [n]. *)
Lemma format_d_spec (n : Z) :
  0 ≤ n →
  str_isdigit (format_d n) = true ∧
  int_of_digits 0 (format_d n) = n ∧
  space_free (format_d n) = true ∧
  format_d n ≠ "".
Proof.
  intros Hn. unfold format_d.
  assert (Hbound : (Z.to_N n < 10 ^ N.of_nat (S (N.to_nat (N.log2 (Z.to_N n)))))%N).
  { rewrite Nat2N.inj_succ, N2Nat.id.
    destruct (N.eq_dec (Z.to_N n) 0%N) as [->|Hpos]; [done|].
    assert (Hposn : (0 < Z.to_N n)%N) by (by apply N.neq_0_lt_0).
    pose proof (N.log2_spec (Z.to_N n) Hposn) as [_ Hlt].
    eapply N.lt_le_trans; [exact Hlt|].
    by apply N.pow_le_mono_l. }
  destruct (format_d_aux_spec (S (N.to_nat (N.log2 (Z.to_N n)))) (Z.to_N n) ""
              ltac:(lia) Hbound) as (Hint & Hall & Hsp & Hne).
  split; [|split; [|split]]; try done.
  - unfold str_isdigit. destruct (format_d_aux _ _ _); [done|]. by rewrite Hall.
  - rewrite Hint. simpl. lia.
Qed.

Lemma bytes_decode_app (a b : bytes) :
  bytes_decode (a ++ b) = bytes_decode a +:+ bytes_decode b.
Proof.
  unfold bytes_decode. induction a as [|x a IH]; [done|].
  change (string_of_list_byte ((x :: a) ++ b))
    with (String (ascii_of_byte x) (string_of_list_byte (a ++ b))).
  rewrite IH. reflexivity.
Qed.

Lemma space_free_decode (b : bytes) :
  Forall (λ c, c ≠ x20) b → space_free (bytes_decode b) = true.
Proof.
  induction 1 as [|c b Hc _ IH]; [done|].
  unfold bytes_decode in *.
  change (space_free (string_of_list_byte (c :: b)))
    with (negb (Ascii.eqb (ascii_of_byte c) " ") && space_free (string_of_list_byte b)).
  rewrite IH, andb_true_r.
  apply negb_true_iff, Ascii.eqb_neq. intros Heq. apply Hc.
  apply (f_equal byte_of_ascii) in Heq. by rewrite byte_of_ascii_of_byte in Heq.
Qed.

Lemma split_words_space_free (w s acc : string) :
  space_free w = true → split_words (w +:+ s) acc = split_words s (acc +:+ w).
Proof.
  revert acc. induction w as [|c w IH]; intros acc Hw.
  - by rewrite str_app_nil_l, str_app_nil_r.
  - simpl in Hw. apply andb_true_iff in Hw as [Hc Hw].
    rewrite str_app_cons. simpl. rewrite (negb_true_iff _) in Hc. rewrite Hc.
    rewrite IH by done. by rewrite str_app_assoc.
Qed.

Lemma split_words_word (w s : string) :
  space_free w = true → w ≠ "" →
  split_words (w +:+ String " " s) "" = w :: split_words s "" ∧
  split_words w "" = [w].
Proof.
  intros Hw Hne. split.
  - rewrite split_words_space_free, str_app_nil_l by done. simpl.
    by rewrite bool_decide_eq_false_2.
  - rewrite <-(str_app_nil_r w) at 1.
    rewrite split_words_space_free, str_app_nil_l by done. simpl.
    by rewrite bool_decide_eq_false_2.
Qed.

Lemma split_words_joined (chunks : list bytes) :
  Forall (λ chunk, Forall (λ c, c ≠ x20) chunk ∧ chunk ≠ []) chunks →
  split_words (bytes_decode (bytes_join [x20] chunks)) "" = map bytes_decode chunks.
Proof.
  induction 1 as [|chunk chunks [Hsp Hne] _ IH]; [done|].
  assert (Hne' : bytes_decode chunk ≠ "").
  { destruct chunk; [done|]. done. }
  pose proof (space_free_decode _ Hsp) as Hsf.
  destruct chunks as [|chunk' chunks].
  - change (bytes_join [x20] [chunk]) with chunk.
    by destruct (split_words_word (bytes_decode chunk) "" Hsf Hne') as [_ ->].
  - change (bytes_join [x20] (chunk :: chunk' :: chunks))
      with (chunk ++ [x20] ++ bytes_join [x20] (chunk' :: chunks)).
    rewrite !bytes_decode_app.
    change (bytes_decode [x20]) with " ".
    change (" " +:+ ?s) with (String " " s).
    destruct (split_words_word (bytes_decode chunk)
                (bytes_decode (bytes_join [x20] (chunk' :: chunks))) Hsf Hne') as [-> _].
    by rewrite IH.
Qed.

Lemma GenericRdata_chunks_rest_words (chunks : list bytes) (tail : list Token)
    (acc : list bytes) :
  GenericRdata_chunks_rest
    (map (mk_Token IDENTIFIER) (map bytes_decode chunks) ++ tail) acc
  = GenericRdata_chunks_rest tail (acc ++ chunks).
Proof.
  revert acc. induction chunks as [|chunk chunks IH]; intros acc; simpl.
  - by rewrite app_nil_r.
  - rewrite IH. unfold str_encode, bytes_decode.
    rewrite list_byte_of_string_of_list_byte. by rewrite <-(assoc_L (++)).
Qed.

(** The text of a generic rdata, lexed into words and followed by [tail],
    parses back to the rdata; [tail] is empty or begins with the end of the
    line. *)
Lemma generic_text_reads_back (rdclass rdtype : Z) (data : bytes)
    (origin : option Name) (relativize : bool) (relativize_to : option Name)
    (tail rest : list Token) :
  tail = [] ∧ rest = [] ∨ tail = mk_Token EOL "" :: rest →
  ∃ text,
    GenericRdata_to_text (GenericRdata___init__ GenericRdata rdclass rdtype (VBytes data))
      origin relativize = Ok text ∧
    GenericRdata_from_text GenericRdata rdclass rdtype
      (mk_Tokenizer None (lex_line text ++ tail)) origin relativize relativize_to
    = Ok (GenericRdata___init__ GenericRdata rdclass rdtype (VBytes data),
          mk_Tokenizer None rest).
Proof.
  intros Htail.
  destruct (hexlify_shape data) as (Hlen & Hsp & _).
  destruct (chunk_join_chunks (hexlify data) _hex_chunksize ltac:(done))
    as (chunks & Hjoin & Hcat & Hnth).
  destruct (format_d_spec (Z.of_nat (length data)) ltac:(lia))
    as (Hdig & Hint & Hsf & Hne).
  assert (Hchunks : Forall (λ chunk, Forall (λ c, c ≠ x20) chunk ∧ chunk ≠ []) chunks).
  { apply Forall_lookup_2. intros j chunk Hj.
    destruct (Hnth j chunk Hj) as [-> Hlt]. split; [by apply chunk_join_space_free|].
    intros Hnil. apply (f_equal length) in Hnil.
    rewrite length_take, length_drop in Hnil.
    change (Z.to_nat _hex_chunksize) with 32%nat in *.
    change (length (@nil byte)) with 0%nat in Hnil. lia. }
  eexists. split.
  { unfold GenericRdata_to_text, _hexify. rewrite getattr_GenericRdata_data.
    cbv beta iota delta [mbind result_bind py_len as_bytes].
    rewrite Hjoin. reflexivity. }
  assert (Hlex : lex_line ("\#" +:+ String " " (format_d (Z.of_nat (length data))
                             +:+ String " " (bytes_decode (bytes_join [x20] chunks))))
                 = mk_Token IDENTIFIER "\#"
                   :: mk_Token IDENTIFIER (format_d (Z.of_nat (length data)))
                   :: map (mk_Token IDENTIFIER) (map bytes_decode chunks)).
  { unfold lex_line.
    destruct (split_words_word "\#"
                (format_d (Z.of_nat (length data))
                 +:+ String " " (bytes_decode (bytes_join [x20] chunks))))
      as [-> _]; [done|done|].
    destruct (split_words_word (format_d (Z.of_nat (length data)))
                (bytes_decode (bytes_join [x20] chunks)) Hsf Hne) as [-> _].
    by rewrite split_words_joined. }
  change ("\# " +:+ ?a +:+ " " +:+ ?b) with ("\#" +:+ String " " (a +:+ String " " b)).
  rewrite Hlex.
  unfold GenericRdata_from_text, Tokenizer_get, Tokenizer_get_int. simpl.
  rewrite Hdig. simpl. unfold GenericRdata_chunks. simpl.
  rewrite GenericRdata_chunks_rest_words. simpl.
  assert (Hrest : GenericRdata_chunks_rest tail chunks = (chunks, mk_Tokenizer None rest)).
  { destruct Htail as [[-> ->]| ->]; done. }
  rewrite Hrest, Hcat, unhexlify_hexlify. simpl.
  rewrite bool_decide_eq_false_2; [done|].
  intros Hbad. apply Hbad. by rewrite Hint.
Qed.

(** X14: text round trip of the generic rdata.  [to_text] of a generic
    rdata holding bytes always returns; reading the words of that text as
    tokens, [from_text] returns the same rdata, whether the input ends
    there or the line ends and further tokens follow, which are left for
    the next read.  The four bytes [c0 00 02 01] give the text
    [\# 4 c0000201]. *)
Theorem generic_text_round_trip (rdclass rdtype : Z) (data : bytes)
    (origin : option Name) (relativize : bool) (relativize_to : option Name)
    (rest : list Token) :
  let g := GenericRdata___init__ GenericRdata rdclass rdtype (VBytes data) in
  (∃ text,
      GenericRdata_to_text g origin relativize = Ok text ∧
      GenericRdata_from_text GenericRdata rdclass rdtype
        (mk_Tokenizer None (lex_line text)) origin relativize relativize_to
      = Ok (g, mk_Tokenizer None []) ∧
      GenericRdata_from_text GenericRdata rdclass rdtype
        (mk_Tokenizer None (lex_line text ++ mk_Token EOL "" :: rest))
        origin relativize relativize_to
      = Ok (g, mk_Tokenizer None rest)) ∧
  GenericRdata_to_text
    (GenericRdata___init__ GenericRdata rdclass rdtype (VBytes [xc0; x00; x02; x01]))
    origin relativize = Ok "\# 4 c0000201".
Proof.
  intros g. split; [|reflexivity].
  destruct (generic_text_reads_back rdclass rdtype data origin relativize relativize_to
              [] [] ltac:(by left)) as (text & Htext & Hend).
  destruct (generic_text_reads_back rdclass rdtype data origin relativize relativize_to
              (mk_Token EOL "" :: rest) rest ltac:(by right)) as (text' & Htext' & Heol).
  rewrite Htext in Htext'. injection Htext' as <-.
  exists text. rewrite app_nil_r in Hend. by repeat split.
Qed.

Lemma GenericRdata_from_text_first_token (c : cls) (rdclass rdtype : Z) (tok : Tokenizer)
    (origin : option Name) (relativize : bool) (relativize_to : option Name)
    (r : rdata * Tokenizer) :
  GenericRdata_from_text c rdclass rdtype tok origin relativize relativize_to = Ok r →
  ∃ token tok1, Tokenizer_get tok = Ok (token, tok1) ∧
                is_identifier token = true ∧ value token = "\#".
Proof.
  unfold GenericRdata_from_text.
  destruct (Tokenizer_get tok) as [[token tok1]|] eqn:Hget; [|done].
  cbv beta iota delta [mbind result_bind].
  destruct (is_identifier token) eqn:Hid; [|done].
  case_bool_decide as Hv; [done|]. intros _.
  exists token, tok1. split; [done|]. split; [done|].
  destruct (decide (value token = "\#")) as [Heq|Hne]; [done|]. by destruct Hv.
Qed.

Lemma GenericRdata_from_text_same_get (c : cls) (rdclass rdtype : Z) (tok tok' : Tokenizer)
    (origin : option Name) (relativize : bool) (relativize_to : option Name) :
  Tokenizer_get tok = Tokenizer_get tok' →
  GenericRdata_from_text c rdclass rdtype tok origin relativize relativize_to
  = GenericRdata_from_text c rdclass rdtype tok' origin relativize relativize_to.
Proof. unfold GenericRdata_from_text. by intros ->. Qed.

Section MoreDispatch.
Context (E : Env).

(** The generic text read through the dispatch. *)
Lemma from_text_reads_generic_text (rdclass rdtype : Z) (data : bytes)
    (origin : option Name) (relativize : bool) (relativize_to : option Name)
    (s s1 : State) (c : cls) :
  get_rdata_class E rdclass rdtype s = (Ok c, s1) →
  let g := GenericRdata___init__ GenericRdata rdclass rdtype (VBytes data) in
  ∃ text,
    GenericRdata_to_text g origin relativize = Ok text ∧
    from_text E rdclass rdtype (inr (mk_Tokenizer None (lex_line text)))
      origin relativize relativize_to s
    = if bool_decide (c = GenericRdata) then (Ok (g, mk_Tokenizer None []), s1)
      else (x ← cls_from_wire E c rdclass rdtype (maybe_wrap data) 0
                  (Z.of_nat (length data)) origin;
            Ok (x, mk_Tokenizer None []), s1).
Proof.
  intros Hres g.
  destruct (generic_text_reads_back rdclass rdtype data origin relativize relativize_to
              [] [] ltac:(by left)) as (text & Htext & Hread).
  rewrite app_nil_r in Hread.
  exists text. split; [done|].
  unfold from_text. unfold mbind at 1, M_bind at 1. rewrite Hres.
  destruct (decide (c = GenericRdata)) as [Hc|Hc].
  - rewrite (bool_decide_eq_true_2 _ Hc).
    rewrite bool_decide_eq_false_2 by (by intros H; apply H).
    rewrite Hc. unfold mbind, M_bind, lift, cls_from_text. by rewrite Hread.
  - rewrite (bool_decide_eq_false_2 _ Hc).
    rewrite bool_decide_eq_true_2 by done.
    destruct (GenericRdata_from_text_first_token _ _ _ _ _ _ _ _ Hread)
      as (token & tok1 & Hget & Hid & Hv).
    destruct (Tokenizer_peek _ _ _ Hget) as (peeked & Hunget & Hpeek).
    unfold mbind at 1, M_bind at 1, lift at 1. rewrite Hget.
    unfold mbind at 1, M_bind at 1, lift at 1. rewrite Hunget.
    rewrite Hid, bool_decide_eq_true_2 by done.
    rewrite (GenericRdata_from_text_same_get _ _ _ peeked
               (mk_Tokenizer None (lex_line text))) by congruence.
    unfold mbind at 1, M_bind at 1, lift at 1. rewrite Hread.
    unfold mbind at 1, M_bind at 1, lift at 1. rewrite getattr_GenericRdata_data.
    unfold mbind at 1, M_bind at 1, lift at 1.
    cbv beta iota delta [py_len].
    unfold mbind at 1, M_bind at 1.
    assert (Hfw : from_wire E rdclass rdtype (VBytes data) 0
                    (Z.of_nat (length data)) origin s1
                  = (cls_from_wire E c rdclass rdtype (maybe_wrap data) 0
                       (Z.of_nat (length data)) origin, s1)).
    { unfold from_wire, mbind, M_bind. simpl.
      rewrite (get_rdata_class_memoized E _ _ _ _ _ E Hres).
      unfold lift. by destruct (cls_from_wire _ _ _ _ _ _ _ _). }
    cbv beta iota delta [andb]. rewrite Hfw.
    by destruct (cls_from_wire _ _ _ _ _ _ _ _).
Qed.

(** X15: the generic text through the dispatch.  With [text] the text of
    the generic rdata holding [data], read as a line of tokens, the
    module-level [from_text] returns that generic rdata when the key
    resolves to [GenericRdata], and otherwise what [from_wire] of the
    resolved class returns on [data]: every type can be written in the
    generic syntax and is read through its own wire parser. *)
Theorem from_text_of_generic_text (rdclass rdtype : Z) (data : bytes)
    (origin : option Name) (relativize : bool) (relativize_to : option Name)
    (s s1 : State) (c : cls) :
  get_rdata_class E rdclass rdtype s = (Ok c, s1) →
  let g := GenericRdata___init__ GenericRdata rdclass rdtype (VBytes data) in
  ∃ text,
    GenericRdata_to_text g origin relativize = Ok text ∧
    from_text E rdclass rdtype (inr (mk_Tokenizer None (lex_line text)))
      origin relativize relativize_to s
    = if bool_decide (c = GenericRdata) then (Ok (g, mk_Tokenizer None []), s1)
      else (x ← cls_from_wire E c rdclass rdtype (maybe_wrap data) 0
                  (Z.of_nat (length data)) origin;
            Ok (x, mk_Tokenizer None []), s1).
Proof.
  intros Hres. by apply from_text_reads_generic_text.
Qed.

(** X16: [extended_rdatatype] packs the covered type above the 16 bits of
    the ordinary type: for a type in 0..65535 and a covered type that is
    not negative, the low 16 bits of the result are the type and the bits
    above are the covered type; for a class that does not override
    [covers] the result is the type itself. *)
Theorem extended_rdatatype_packs (covers : Z) (self : rdata) :
  0 ≤ rdtype self < 65536 → 0 ≤ covers →
  extended_rdatatype_covering covers self = covers * 65536 + rdtype self ∧
  Z.land (extended_rdatatype_covering covers self) 65535 = rdtype self ∧
  Z.shiftr (extended_rdatatype_covering covers self) 16 = covers ∧
  Rdata_extended_rdatatype self = rdtype self.
Proof.
  intros Ht Hc. unfold extended_rdatatype_covering.
  assert (Hsum : Z.lor (Z.shiftl covers 16) (rdtype self) = covers * 65536 + rdtype self).
  { rewrite <-Z.add_nocarry_lor.
    - by rewrite Z.shiftl_mul_pow2.
    - apply Z.bits_inj'. intros n Hn. rewrite Z.land_spec, Z.bits_0.
      destruct (Z.lt_ge_cases n 16) as [Hlt|Hge].
      + by rewrite Z.shiftl_spec_low.
      + rewrite (Z.bits_above_log2 (rdtype self) n); [apply andb_false_r|lia|].
        destruct (Z.eq_dec (rdtype self) 0) as [->|Hne]; [simpl; lia|].
        apply Z.log2_lt_pow2; [lia|].
        eapply Z.lt_le_trans; [apply Ht|].
        change 65536 with (2 ^ 16). apply Z.pow_le_mono_r; lia. }
  rewrite Hsum. split; [done|]. split; [|split].
  - change 65535 with (Z.ones 16). rewrite Z.land_ones by done.
    change (2 ^ 16) with 65536.
    rewrite Z.add_comm, Z.mod_add by done. apply Z.mod_small. lia.
  - rewrite Z.shiftr_div_pow2 by done. change (2 ^ 16) with 65536.
    rewrite Z.add_comm, Z.div_add by done. rewrite Z.div_small by lia. lia.
  - unfold Rdata_extended_rdatatype, Rdata_covers, rdatatype_NONE.
    by rewrite Z.shiftl_0_l, Z.lor_0_l.
Qed.

End MoreDispatch.

Lemma list_triple_ind {A} (P : list A → Prop) :
  P [] → (∀ x, P [x]) → (∀ x y, P [x; y]) →
  (∀ x y z l, P l → P (x :: y :: z :: l)) → ∀ l, P l.
Proof.
  intros Hnil Hone Htwo Hstep l.
  assert (P l ∧ (∀ x, P (x :: l)) ∧ ∀ x y, P (x :: y :: l)) as [? _]; [|done].
  induction l as [|z l (IH1 & IH2 & IH3)]; [by repeat split|].
  split; [apply IH2|]. split; [intros x; apply IH3|].
  intros x y. by apply Hstep.
Qed.

Lemma b64_char_not_space (n : N) : b64_char n ≠ x20.
Proof.
  unfold b64_char.
  set (k := (if (n <? 26)%N then (65 + n)%N
             else if (n <? 52)%N then (71 + n)%N
             else if (n <? 62)%N then (n - 4)%N
             else if (n =? 62)%N then 43%N else 47%N)).
  assert (Hk : k ≠ 32%N).
  { subst k.
    destruct (N.ltb_spec n 26); [lia|].
    destruct (N.ltb_spec n 52); [lia|].
    destruct (N.ltb_spec n 62); [lia|].
    destruct (N.eqb_spec n 62); lia. }
  destruct (Byte.of_N k) as [b|] eqn:Hb; simpl; [|done].
  intros ->. apply Byte.to_of_N in Hb. by apply Hk.
Qed.

Lemma b64encode_shape (data : bytes) :
  length (b64encode data) = (4 * ((length data + 2) / 3))%nat ∧
  Forall (λ c, c ≠ x20) (b64encode data).
Proof.
  induction data as [|a|a b|a b c data [IHl IHs]] using list_triple_ind.
  - by split.
  - split; [done|]. repeat constructor; try apply b64_char_not_space; done.
  - split; [done|]. repeat constructor; try apply b64_char_not_space; done.
  - change (b64encode (a :: b :: c :: data))
      with (let n := (Byte.to_N a * 65536 + Byte.to_N b * 256 + Byte.to_N c)%N in
            b64_char (n / 262144) :: b64_char (n / 4096 mod 64) ::
            b64_char (n / 64 mod 64) :: b64_char (n mod 64) :: b64encode data).
    cbv zeta. split.
    + simpl length. rewrite IHl.
      replace (S (S (S (length data))) + 2)%nat with (1 * 3 + (length data + 2))%nat by lia.
      rewrite Nat.div_add_l by done. lia.
    + repeat (constructor; [apply b64_char_not_space|]). done.
Qed.

(** X17: for a positive chunk size, [_base64ify] returns the base64
    encoding of the data, whose length is four characters for every three
    bytes begun, cut into groups of [chunksize] characters (the last one
    may be shorter) separated by single spaces; taking the spaces out gives
    the encoding back.  A chunk size of zero raises [ValueError], and a
    negative one returns the empty text whatever the data. *)
Theorem base64ify_chunks (data : bytes) :
  (∀ chunksize, 0 < chunksize →
     ∃ chunks,
       _base64ify data chunksize = Ok (bytes_decode (bytes_join [x20] chunks)) ∧
       concat chunks = b64encode data ∧
       (∀ j chunk, chunks !! j = Some chunk →
          chunk = take (Z.to_nat chunksize)
                    (drop (j * Z.to_nat chunksize) (b64encode data)) ∧
          (j * Z.to_nat chunksize < 4 * ((length data + 2) / 3))%nat) ∧
       filter (λ c, c ≠ x20) (bytes_join [x20] chunks) = b64encode data) ∧
  (∃ msg, _base64ify data 0 = Err (ValueError msg)) ∧
  (∀ chunksize, chunksize < 0 → _base64ify data chunksize = Ok "").
Proof.
  destruct (b64encode_shape data) as (Hlen & Hsp).
  split; [|split].
  - intros chunksize Hpos.
    destruct (chunk_join_chunks (b64encode data) chunksize Hpos)
      as (chunks & Hjoin & Hcat & Hnth).
    exists chunks. split; [done|]. split; [done|]. split.
    + intros j chunk Hj. rewrite <-Hlen. by apply Hnth.
    + rewrite bytes_join_filter, Hcat; [done|].
      apply Forall_lookup_2. intros j chunk Hj.
      destruct (Hnth j chunk Hj) as [-> _]. by apply chunk_join_space_free.
  - by eexists.
  - intros chunksize Hneg. unfold _base64ify, chunk_join.
    destruct (Z.eqb_spec chunksize 0) as [?|_]; [lia|].
    by destruct (Z.ltb_spec chunksize 0) as [_|?]; [|lia].
Qed.

(** X18: [_truncate_bitmap] is idempotent, and it returns its argument
    unchanged when the last byte of the argument is not zero. *)
Theorem truncate_bitmap_idempotent (what : bytes) :
  _truncate_bitmap (_truncate_bitmap what) = _truncate_bitmap what ∧
  (∀ c, last what = Some c → c ≠ x00 → _truncate_bitmap what = what).
Proof.
  assert (Hlast : ∀ w c, last w = Some c → c ≠ x00 → _truncate_bitmap w = w).
  { intros w c Hl Hc. apply last_Some in Hl as [w' ->].
    unfold _truncate_bitmap. rewrite length_app. simpl length.
    rewrite Nat.add_1_r. simpl.
    rewrite app_nth2, Nat.sub_diag by lia. simpl.
    rewrite bool_decide_eq_true_2 by done.
    rewrite firstn_all2; [done|]. rewrite length_app. simpl. lia. }
  split; [|exact (Hlast what)].
  destruct (decide (Exists (λ c, c ≠ x00) what)) as [Hex|Hall].
  - destruct (_truncate_bitmap_loop_nonzero what (length what)) as (i & Hi & Hnz & _ & Hr);
      [done| |].
    { apply Exists_exists in Hex as (c & Hin & Hc).
      apply list_elem_of_lookup in Hin as [i Hi].
      exists i. split; [by eapply lookup_lt_Some|].
      by rewrite (nth_lookup_Some _ _ x00 _ Hi). }
    unfold _truncate_bitmap at 2 3. rewrite Hr.
    destruct (take_S_nonzero_ended what i Hi Hnz) as [_ (c & Hl & Hc)].
    by apply (Hlast _ c).
  - apply not_Exists_Forall in Hall; [|intros c; simpl; apply _].
    assert (Hzero : ∀ w, Forall (λ c, c = x00) w → _truncate_bitmap w = take 1 w).
    { intros w Hw. apply _truncate_bitmap_loop_zero. intros i Hi.
      destruct (lookup_lt_is_Some_2 w i Hi) as [c Hc].
      rewrite (nth_lookup_Some _ _ x00 _ Hc).
      by apply (Forall_lookup_1 _ _ _ _ Hw Hc). }
    assert (Hall' : Forall (λ c, c = x00) what).
    { eapply Forall_impl; [exact Hall|]. simpl. intros c Hc. by apply dec_stable. }
    rewrite (Hzero what Hall'). rewrite Hzero by (by apply Forall_take).
    by rewrite take_take.
Qed.

Section MoreAbstract.
Context (E : Env).


(** X20: [validate] of a generic rdata.  With a tokenizer that reads a text
    as a line of words, [validate] of a generic rdata holding bytes returns
    without an error when its key resolves to [GenericRdata]; when the key
    resolves to another class, [validate] returns exactly when [from_wire]
    of that class accepts the bytes. *)
Theorem validate_generic
    (variant_to_text : string → rdata → option Name → bool → result string)
    (rdclass rdtype : Z) (data : bytes) (s s1 : State) (c : cls) :
  (∀ text, Tokenizer_new E text = mk_Tokenizer None (lex_line text)) →
  get_rdata_class E rdclass rdtype s = (Ok c, s1) →
  let g := GenericRdata___init__ GenericRdata rdclass rdtype (VBytes data) in
  Rdata_validate E variant_to_text g s
  = if bool_decide (c = GenericRdata) then (Ok (), s1)
    else (_ ← cls_from_wire E c rdclass rdtype (maybe_wrap data) 0
                 (Z.of_nat (length data)) None;
          Ok (), s1).
Proof.
  intros Hlex Hres g.
  destruct (from_text_reads_generic_text E rdclass rdtype data None true None s s1 c Hres)
    as (text & Htext & Hfrom).
  subst g. unfold Rdata_validate.
  change (to_text variant_to_text
            (GenericRdata___init__ GenericRdata rdclass rdtype (VBytes data)) None true)
    with (GenericRdata_to_text
            (GenericRdata___init__ GenericRdata rdclass rdtype (VBytes data)) None true).
  rewrite Htext. unfold mbind at 1, M_bind at 1, lift at 1.
  change (from_text E _ _ (inl text) None true None)
    with (from_text E rdclass rdtype (inr (Tokenizer_new E text)) None true None).
  rewrite Hlex. unfold mbind at 1, M_bind at 1. rewrite Hfrom.
  case_bool_decide; [done|].
  by destruct (cls_from_wire _ _ _ _ _ _ _ _).
Qed.

End MoreAbstract.

(** ** The properties at concrete inputs *)

Lemma truncate_bitmap_longest_prefix_witness :
  Exists (λ c, c ≠ x00) [x01; x02; x00; x00] ∧
  longest_nonzero_ended_prefix [x01; x02; x00; x00] [x01; x02] ∧
  [x01; x02; x00; x00] ≠ [] ∧
  (1 ≤ length (_truncate_bitmap [x01; x02; x00; x00]))%nat.
Proof.
  assert (Hex : Exists (λ c, c ≠ x00) [x01; x02; x00; x00]).
  { by apply Exists_cons_hd. }
  assert (Hne : [x01; x02; x00; x00] ≠ []) by done.
  destruct truncate_bitmap_longest_prefix as [Hall _].
  destruct (Hall [x01; x02; x00; x00]) as (_ & Hlong & _ & Hlen & _).
  split; [exact Hex|]. split; [exact (proj1 (Hlong Hex))|].
  split; [exact Hne|exact (Hlen Hne)].
Defined.

Lemma rdata_canonical_order_witness :
  same_class_and_type example_g1 example_g2 ∧
  same_class_and_type example_g2 example_g4 ∧
  Rdata_to_digestable example_env example_g1 (Some root) = Ok [x01; x02] ∧
  Rdata_to_digestable example_env example_g2 (Some root) = Ok [x01; x03] ∧
  Rdata_to_digestable example_env example_g4 (Some root) = Ok [x01; x04] ∧
  op_lt example_env example_g1 example_g2 = Ok true ∧
  op_lt example_env example_g2 example_g4 = Ok true ∧
  op_lt example_env example_g1 example_g4 = Ok true ∧
  op_lt example_env example_g2 example_g1 = Ok false ∧
  ¬ same_class_and_type example_g1 example_g3 ∧
  Rdata___eq__ example_env example_g1 (ObjRdata example_g3) = Ok false ∧
  (∃ m, op_lt example_env example_g1 example_g3 = Err (TypeError m)).
Proof.
  assert (H12 : same_class_and_type example_g1 example_g2) by done.
  assert (H24 : same_class_and_type example_g2 example_g4) by done.
  assert (H1 : Rdata_to_digestable example_env example_g1 (Some root) = Ok [x01; x02])
    by reflexivity.
  assert (H2 : Rdata_to_digestable example_env example_g2 (Some root) = Ok [x01; x03])
    by reflexivity.
  assert (H4 : Rdata_to_digestable example_env example_g4 (Some root) = Ok [x01; x04])
    by reflexivity.
  assert (Hd : ¬ same_class_and_type example_g1 example_g3).
  { intros [_ Ht]. discriminate Ht. }
  destruct (rdata_canonical_order example_env example_g1 example_g2 example_g4
              _ _ _ H12 H24 H1 H2 H4) as (_ & _ & Hasym & Htrans & Hdiff).
  destruct (Hdiff example_g1 example_g3 Hd) as (Heq & _ & _ & _ & _ & _ & Hlt & _).
  split; [exact H12|]. split; [exact H24|]. split; [exact H1|].
  split; [exact H2|]. split; [exact H4|].
  assert (Hlt12 : op_lt example_env example_g1 example_g2 = Ok true) by reflexivity.
  assert (Hlt24 : op_lt example_env example_g2 example_g4 = Ok true) by reflexivity.
  split; [exact Hlt12|]. split; [exact Hlt24|].
  split; [exact (Htrans Hlt12 Hlt24)|].
  split; [exact (proj1 (Hasym Hlt12))|].
  split; [exact Hd|]. split; [exact Heq|exact Hlt].
Defined.

Lemma hash_agrees_with_eq_witness :
  Rdata___eq__ example_env example_g1 (ObjRdata example_a1) = Ok true ∧
  Rdata___hash__ example_env example_g1 = Rdata___hash__ example_env example_a1.
Proof.
  assert (Heq : Rdata___eq__ example_env example_g1 (ObjRdata example_a1) = Ok true)
    by reflexivity.
  destruct (hash_agrees_with_eq example_env example_g1 example_a1 Heq)
    as (d & _ & _ & _ & _ & Hh).
  split; [exact Heq|exact Hh].
Defined.

Lemma replace_one_field_witness :
  constructor_stores example_env (__class__ example_g1) ∧
  "data" ∈ signature_parameters example_env (__class__ example_g1) ∧
  (∃ v', Rdata_replace example_env example_g1 [("data", VBytes [x03])] = Ok v' ∧
         __class__ v' = GenericRdata ∧
         getattr v' "data" = Ok (VBytes [x03]) ∧
         getattr v' "rdclass" = Ok (VInt 1) ∧
         getattr v' "rdtype" = Ok (VInt 9999)) ∧
  (∃ msg, Rdata_replace example_env example_g1 [("rdtype", VInt 1)]
          = Err (AttributeError msg)) ∧
  (∃ msg, Rdata_replace example_env example_g1 [("address", VInt 1)]
          = Err (AttributeError msg)).
Proof.
  pose proof (GenericRdata_constructor_stores example_env) as Hstores.
  assert (Hdata : "data" ∈ signature_parameters example_env (__class__ example_g1)).
  { simpl. apply list_elem_of_further, list_elem_of_further, list_elem_of_here. }
  assert (Hc : "rdclass" ∈ signature_parameters example_env (__class__ example_g1)).
  { simpl. apply list_elem_of_here. }
  assert (Ht : "rdtype" ∈ signature_parameters example_env (__class__ example_g1)).
  { simpl. apply list_elem_of_further, list_elem_of_here. }
  assert (Hget : ∀ key, key ∈ signature_parameters example_env (__class__ example_g1) →
                        ∃ cur, getattr example_g1 key = Ok cur).
  { intros key Hin. simpl in Hin.
    apply elem_of_cons in Hin as [->|Hin]; [by eexists|].
    apply elem_of_cons in Hin as [->|Hin]; [by eexists|].
    apply list_elem_of_singleton in Hin as ->. by eexists. }
  destruct (replace_one_field example_env) as [Hok Hfail].
  destruct (Hok example_g1 "data" (VBytes [x03]) Hstores Hget Hdata)
    as (v' & Hr & Hcls & Hf & Hrest); [done|done|].
  split; [exact Hstores|]. split; [exact Hdata|]. split; [|split].
  - exists v'. split; [exact Hr|]. split; [exact Hcls|]. split; [exact Hf|].
    split.
    + rewrite (Hrest "rdclass" Hc); [reflexivity|done].
    + rewrite (Hrest "rdtype" Ht); [reflexivity|done].
  - apply (Hfail example_g1 _ "rdtype" (VInt 1)); [apply list_elem_of_here|].
    right. by right.
  - apply (Hfail example_g1 _ "address" (VInt 1)); [apply list_elem_of_here|].
    left. simpl. rewrite !not_elem_of_cons. repeat split; try done.
    apply not_elem_of_nil.
Defined.

Lemma generic_from_text_failures_witness :
  Tokenizer_get example_tok_generic
    = Ok (mk_Token IDENTIFIER "\#",
          mk_Tokenizer None [mk_Token IDENTIFIER "2"; mk_Token IDENTIFIER "c0";
                             mk_Token IDENTIFIER "00"]) ∧
  GenericRdata_from_text GenericRdata 1 9999 example_tok_generic None true None
    = Ok (GenericRdata___init__ GenericRdata 1 9999 (VBytes [xc0; x00]),
          mk_Tokenizer None []).
Proof.
  assert (Hget : Tokenizer_get example_tok_generic
            = Ok (mk_Token IDENTIFIER "\#",
                  mk_Tokenizer None [mk_Token IDENTIFIER "2"; mk_Token IDENTIFIER "c0";
                                     mk_Token IDENTIFIER "00"])) by reflexivity.
  split; [exact Hget|].
  destruct (generic_from_text_failures GenericRdata 1 9999 _ _ _ None true None Hget)
    as [_ Hrest].
  destruct Hrest as [_ Hint]; [reflexivity|reflexivity|].
  destruct (Hint 2 (mk_Tokenizer None [mk_Token IDENTIFIER "c0"; mk_Token IDENTIFIER "00"]))
    as (_ & _ & Hok); [reflexivity|].
  apply (Hok [xc0; x00]); reflexivity.
Defined.

Lemma get_rdata_class_resolution_witness :
  _rdata_classes empty_state !! (1, 99) = None ∧
  get_rdata_class example_env 1 99 empty_state
    = (Ok GenericRdata, cached (1, 99) GenericRdata empty_state) ∧
  get_rdata_class example_env 1 99 (cached (1, 99) GenericRdata empty_state)
    = (Ok GenericRdata, cached (1, 99) GenericRdata empty_state).
Proof.
  assert (Hmiss : _rdata_classes empty_state !! (1, 99) = None) by reflexivity.
  assert (Hany : _rdata_classes empty_state !! (rdatatype_ANY, 99) = None) by reflexivity.
  destruct (get_rdata_class_resolution example_env 1 99 empty_state)
    as (_ & _ & Hload & Hmemo).
  destruct (Hload "IN" "TYPE" Hmiss Hany) as [_ Hfall]; [reflexivity|reflexivity|].
  destruct (Hfall "dns.rdtypes.IN.TYPE") as [_ Hgen]; [reflexivity|].
  pose proof (Hgen "dns.rdtypes.ANY.TYPE" eq_refl) as Hr.
  split; [exact Hmiss|]. split; [exact Hr|].
  exact (Hmemo _ _ Hr example_env).
Defined.

Lemma register_type_exists_iff_witness :
  get_rdata_class example_env 1 9999 empty_state
    = (Ok GenericRdata, cached (1, 9999) GenericRdata empty_state) ∧
  example_implementation !! str_replace "-" "_" "X-Y" = Some (Variant "XY") ∧
  (register_type example_env example_implementation 9999 "X-Y" false 1 empty_state).1
    = Ok () ∧
  (register_type example_env example_implementation 9999 "X-Y" false 1
     (register_type example_env example_implementation 9999 "X-Y" false 1 empty_state).2).1
    = Err (RdatatypeExists 1 9999).
Proof.
  assert (Hres : get_rdata_class example_env 1 9999 empty_state
            = (Ok GenericRdata, cached (1, 9999) GenericRdata empty_state))
    by reflexivity.
  assert (Himpl : example_implementation !! str_replace "-" "_" "X-Y"
                  = Some (Variant "XY")) by reflexivity.
  destruct (register_type_exists_iff example_env example_implementation 9999 "X-Y"
              false 1 _ _ _ _ Hres Himpl) as (_ & _ & Hok & Hagain).
  destruct (Hok eq_refl) as (Hr & _ & _).
  split; [exact Hres|]. split; [exact Himpl|].
  rewrite Hr. split; [reflexivity|]. simpl.
  apply (Hagain eq_refl example_env example_implementation "X-Y" false).
  discriminate.
Defined.

Lemma from_text_dispatch_witness :
  get_rdata_class example_env 1 1 empty_state
    = (Ok (Variant "A"), cached (1, 1) (Variant "A") empty_state) ∧
  Tokenizer_get example_tok_generic
    = Ok (mk_Token IDENTIFIER "\#",
          mk_Tokenizer None [mk_Token IDENTIFIER "2"; mk_Token IDENTIFIER "c0";
                             mk_Token IDENTIFIER "00"]) ∧
  from_text example_env 1 1 (inr example_tok_generic) None true None empty_state
    = (Ok (mk_rdata (Variant "A") 1 1 {["address" := VBytes [xc0; x00]]},
           mk_Tokenizer None []),
       cached (1, 1) (Variant "A") empty_state).
Proof.
  assert (Hres : get_rdata_class example_env 1 1 empty_state
            = (Ok (Variant "A"), cached (1, 1) (Variant "A") empty_state))
    by reflexivity.
  assert (Hget : Tokenizer_get example_tok_generic
            = Ok (mk_Token IDENTIFIER "\#",
                  mk_Tokenizer None [mk_Token IDENTIFIER "2"; mk_Token IDENTIFIER "c0";
                                     mk_Token IDENTIFIER "00"])) by reflexivity.
  split; [exact Hres|]. split; [exact Hget|].
  destruct (from_text_dispatch example_env 1 1 (inr example_tok_generic) None true None
              _ _ _ _ _ Hres Hget) as [_ Hknown].
  destruct Hknown as (peeked & Hunget & _ & Hgeneric & _); [discriminate|].
  injection Hunget as <-.
  specialize (Hgeneric (conj eq_refl eq_refl)).
  simpl in Hgeneric.
  destruct Hgeneric as (data & _ & Hdata & _ & Hr).
  injection Hdata as <-. exact Hr.
Defined.

Lemma le_ge_follow_lt_eq_witness :
  same_class_and_type example_g1 example_g2 ∧
  Rdata_to_digestable example_env example_g1 (Some root) = Ok [x01; x02] ∧
  Rdata_to_digestable example_env example_g2 (Some root) = Ok [x01; x03] ∧
  op_le example_env example_g1 example_g2 = Ok true ∧
  op_ge example_env example_g2 example_g1 = Ok true ∧
  op_le example_env example_g1 example_g1 = Ok true.
Proof.
  assert (H12 : same_class_and_type example_g1 example_g2) by done.
  assert (H1 : Rdata_to_digestable example_env example_g1 (Some root) = Ok [x01; x02])
    by reflexivity.
  assert (H2 : Rdata_to_digestable example_env example_g2 (Some root) = Ok [x01; x03])
    by reflexivity.
  destruct (le_ge_follow_lt_eq example_env example_g1 example_g2 _ _ H12 H1 H2)
    as (lt & eq & Hlt & Heq & Hle & Hge & Hswap & Hrefl & _).
  injection Hlt as <-. injection Heq as <-.
  split; [exact H12|]. split; [exact H1|]. split; [exact H2|].
  split; [exact Hle|]. split; [|exact Hrefl].
  rewrite Hswap. exact Hle.
Defined.

Lemma cmp_antisymmetric_witness :
  Rdata__cmp example_env example_g1 example_g2 = Ok (-1) ∧
  Rdata__cmp example_env example_g2 example_g1 = Ok 1.
Proof.
  assert (H : Rdata__cmp example_env example_g1 example_g2 = Ok (-1)) by reflexivity.
  split; [exact H|].
  exact (proj2 (cmp_antisymmetric example_env example_g1 example_g2 (-1) H)).
Defined.

Lemma from_wire_generic_round_trip_witness :
  Rdata_to_digestable example_env example_a1 (Some root) = Ok [x01; x02] ∧
  get_rdata_class example_env 1 9999 empty_state
    = (Ok GenericRdata, cached (1, 9999) GenericRdata empty_state) ∧
  wiredata_slice example_env (maybe_wrap [x01; x02]) 0 (0 + 2) = Ok [x01; x02] ∧
  from_wire example_env 1 9999 (VBytes [x01; x02]) 0 2 None empty_state
    = (Ok example_g1, cached (1, 9999) GenericRdata empty_state) ∧
  Rdata___eq__ example_env example_g1 (ObjRdata example_a1) = Ok true.
Proof.
  assert (Hw : Rdata_to_digestable example_env example_a1 (Some root) = Ok [x01; x02])
    by reflexivity.
  assert (Hres : get_rdata_class example_env (rdclass example_a1) (rdtype example_a1)
                   empty_state
                 = (Ok GenericRdata, cached (1, 9999) GenericRdata empty_state))
    by reflexivity.
  assert (Hslice : wiredata_slice example_env (maybe_wrap [x01; x02]) 0
                     (0 + Z.of_nat (length [x01; x02])) = Ok [x01; x02])
    by reflexivity.
  destruct (from_wire_generic_round_trip example_env example_a1 [x01; x02] None
              empty_state _ Hw Hres Hslice) as [Hfrom Heq].
  split; [exact Hw|]. split; [exact Hres|]. split; [exact Hslice|].
  split; [exact Hfrom|exact Heq].
Defined.

Lemma replace_many_fields_witness :
  constructor_stores example_env (__class__ example_g1) ∧
  NoDup [("data", VBytes [x03])].*1 ∧
  ∃ v', Rdata_replace example_env example_g1 [("data", VBytes [x03])] = Ok v' ∧
        getattr v' "data" = Ok (VBytes [x03]) ∧
        getattr v' "rdtype" = Ok (VInt 9999).
Proof.
  pose proof (GenericRdata_constructor_stores example_env) as Hstores.
  assert (Hnd : NoDup [("data", VBytes [x03])].*1).
  { apply NoDup_singleton. }
  assert (Hget : ∀ key, key ∈ signature_parameters example_env (__class__ example_g1) →
                        ∃ cur, getattr example_g1 key = Ok cur).
  { intros key Hin. simpl in Hin.
    apply elem_of_cons in Hin as [->|Hin]; [by eexists|].
    apply elem_of_cons in Hin as [->|Hin]; [by eexists|].
    apply list_elem_of_singleton in Hin as ->. by eexists. }
  assert (Hvalid : ∀ key x, (key, x) ∈ [("data", VBytes [x03])] →
                     key ∈ signature_parameters example_env (__class__ example_g1) ∧
                     key ≠ "rdclass" ∧ key ≠ "rdtype").
  { intros key x [= -> ->]%list_elem_of_singleton. split; [|done].
    simpl. apply list_elem_of_further, list_elem_of_further, list_elem_of_here. }
  destruct (replace_many_fields example_env example_g1 _ Hstores Hget Hnd Hvalid)
    as (v' & Hr & _ & Hset & Hkeep).
  split; [exact Hstores|]. split; [exact Hnd|].
  exists v'. split; [exact Hr|]. split.
  - apply Hset. apply list_elem_of_here.
  - rewrite Hkeep; [reflexivity| |].
    + simpl. apply list_elem_of_further, list_elem_of_here.
    + simpl. by intros [= ]%list_elem_of_singleton.
Defined.

Lemma escapify_injective_witness :
  _escapify (inr [x61; x22]) = _escapify (inl (String "a" (String quote_char ""))) ∧
  [x61; x22] = str_encode (String "a" (String quote_char "")).
Proof.
  assert (H : _escapify (inr [x61; x22])
              = _escapify (inr (str_encode (String "a" (String quote_char "")))))
    by reflexivity.
  split; [exact H|].
  exact (escapify_injective _ _ H).
Defined.

Lemma from_text_of_generic_text_witness :
  get_rdata_class example_env 1 1 empty_state
    = (Ok (Variant "A"), cached (1, 1) (Variant "A") empty_state) ∧
  GenericRdata_to_text (GenericRdata___init__ GenericRdata 1 1 (VBytes [xc0; x00]))
    None true = Ok "\# 2 c000" ∧
  from_text example_env 1 1 (inr (mk_Tokenizer None (lex_line "\# 2 c000")))
    None true None empty_state
  = (Ok (mk_rdata (Variant "A") 1 1 {["address" := VBytes [xc0; x00]]},
         mk_Tokenizer None []),
     cached (1, 1) (Variant "A") empty_state).
Proof.
  assert (Hres : get_rdata_class example_env 1 1 empty_state
            = (Ok (Variant "A"), cached (1, 1) (Variant "A") empty_state))
    by reflexivity.
  destruct (from_text_of_generic_text example_env 1 1 [xc0; x00] None true None
              _ _ _ Hres) as (text & Htext & Hfrom).
  assert (Ht : GenericRdata_to_text
                 (GenericRdata___init__ GenericRdata 1 1 (VBytes [xc0; x00]))
                 None true = Ok "\# 2 c000") by reflexivity.
  rewrite Ht in Htext. injection Htext as <-.
  split; [exact Hres|]. split; [exact Ht|]. exact Hfrom.
Defined.

Lemma extended_rdatatype_packs_witness :
  0 ≤ rdtype example_g1 < 65536 ∧ 0 ≤ 46 ∧
  extended_rdatatype_covering 46 example_g1 = 46 * 65536 + 9999 ∧
  Z.shiftr (extended_rdatatype_covering 46 example_g1) 16 = 46.
Proof.
  assert (Ht : 0 ≤ rdtype example_g1 < 65536) by (by split).
  assert (Hc : 0 ≤ 46) by done.
  destruct (extended_rdatatype_packs 46 example_g1 Ht Hc) as (Hsum & _ & Hhigh & _).
  split; [exact Ht|]. split; [exact Hc|]. split; [exact Hsum|exact Hhigh].
Defined.


Lemma validate_generic_witness :
  (∀ text, Tokenizer_new example_env_words text = mk_Tokenizer None (lex_line text)) ∧
  get_rdata_class example_env_words 1 9999 empty_state
    = (Ok GenericRdata, cached (1, 9999) GenericRdata empty_state) ∧
  Rdata_validate example_env_words (λ _ _ _ _, Err NotImplementedError)
    (GenericRdata___init__ GenericRdata 1 9999 (VBytes [xc0; x00; x02; x01])) empty_state
  = (Ok (), cached (1, 9999) GenericRdata empty_state).
Proof.
  assert (Hlex : ∀ text, Tokenizer_new example_env_words text
                         = mk_Tokenizer None (lex_line text)) by reflexivity.
  assert (Hres : get_rdata_class example_env_words 1 9999 empty_state
                 = (Ok GenericRdata, cached (1, 9999) GenericRdata empty_state))
    by reflexivity.
  split; [exact Hlex|]. split; [exact Hres|].
  exact (validate_generic example_env_words (λ _ _ _ _, Err NotImplementedError)
           1 9999 [xc0; x00; x02; x01] _ _ _ Hlex Hres).
Defined.

